(** * mtdata/entry.py: dataset identifiers, entries, experiments and papers

    A shallow embedding of [mtdata/entry.py] and the properties of its
    identifier grammar, entry validation and paper/experiment links.

    Python [str] values are modelled by [string]; a character [c : ascii] is
    read as the code point U+0000..U+00FF with the same number, and the
    character classes below are the ones CPython's [str.isspace],
    [str.isupper] and [str.islower] compute on that range.  Python [assert]
    statements are modelled as always enabled. *)

From Stdlib Require Import String Ascii List Bool NArith Lia.
From stdpp Require Import base strings list gmap.
Import ListNotations.

(** ** Python string primitives *)

Module Py.

(** The code point of a character. *)
Definition ord (c : ascii) : N := N_of_ascii c.

Definition between (lo hi n : N) : bool := (lo <=? n)%N && (n <=? hi)%N.

(** [ch.isspace()]: the characters [str.strip()] removes. *)
Definition isspace (c : ascii) : bool :=
  let n := ord c in
  between 9 13 n || between 28 32 n || (n =? 133)%N || (n =? 160)%N.

(** Characters with the Unicode property Uppercase. *)
Definition isupper_ch (c : ascii) : bool :=
  let n := ord c in
  between 65 90 n || between 192 214 n || between 216 222 n.

(** Characters with the Unicode property Lowercase. *)
Definition islower_ch (c : ascii) : bool :=
  let n := ord c in
  between 97 122 n || (n =? 170)%N || (n =? 181)%N || (n =? 186)%N
  || between 223 246 n || between 248 255 n.

(** A cased character is an upper-case or a lower-case one (there is no
    title-case character below U+0100). *)
Definition iscased (c : ascii) : bool := isupper_ch c || islower_ch c.

Fixpoint forallb_str (p : ascii -> bool) (s : string) : bool :=
  match s with
  | EmptyString => true
  | String c s' => p c && forallb_str p s'
  end.

Fixpoint existsb_str (p : ascii -> bool) (s : string) : bool :=
  match s with
  | EmptyString => false
  | String c s' => p c || existsb_str p s'
  end.

(** [s.islower()]: no upper-case character and at least one lower-case
    one. *)
Definition islower (s : string) : bool :=
  forallb_str (fun c => negb (isupper_ch c)) s && existsb_str islower_ch s.

(** Truth value of a string: [bool(s)]. *)
Definition truthy (s : string) : bool :=
  match s with EmptyString => false | String _ _ => true end.

(** [ch in s] for a one-character [ch]. *)
Definition contains_char (ch : ascii) (s : string) : bool :=
  existsb_str (Ascii.eqb ch) s.

Fixpoint lstrip (s : string) : string :=
  match s with
  | EmptyString => EmptyString
  | String c s' => if isspace c then lstrip s' else s
  end.

Fixpoint rstrip (s : string) : string :=
  match s with
  | EmptyString => EmptyString
  | String c s' =>
      match rstrip s' with
      | EmptyString => if isspace c then EmptyString else String c EmptyString
      | r => String c r
      end
  end.

(** [s.strip()] *)
Definition strip (s : string) : string := rstrip (lstrip s).

(** [s.startswith(p)] *)
Fixpoint startswith (p s : string) : bool :=
  match p, s with
  | EmptyString, _ => true
  | String a p', String b s' => Ascii.eqb a b && startswith p' s'
  | String _ _, EmptyString => false
  end.

(** [sep.join(parts)] *)
Fixpoint join (sep : string) (parts : list string) : string :=
  match parts with
  | [] => EmptyString
  | [p] => p
  | p :: ps => p +:+ sep +:+ join sep ps
  end.

(** The scan of [s.split(sep)] for a non-empty [sep]: [cur] is the segment
    read so far and [skip] the number of characters of a separator just
    matched that are still to be passed over. *)
Fixpoint split_scan (sep : string) (skip : nat) (cur s : string) : list string :=
  match s with
  | EmptyString => [cur]
  | String c s' =>
      match skip with
      | S k => split_scan sep k cur s'
      | O =>
          if startswith sep s
          then cur :: split_scan sep (String.length sep - 1) EmptyString s'
          else split_scan sep 0 (cur +:+ String c EmptyString) s'
      end
  end.

(** [s.split(sep)]; [None] is the [ValueError] of an empty separator. *)
Definition split (sep s : string) : option (list string) :=
  match sep with
  | EmptyString => None
  | String _ _ => Some (split_scan sep 0 EmptyString s)
  end.

(** The characters of a string as one-character strings: [tuple(s)]. *)
Fixpoint chars (s : string) : list string :=
  match s with
  | EmptyString => []
  | String c s' => String c EmptyString :: chars s'
  end.

(** The double quote character. *)
Definition dquote : string := String "034"%char EmptyString.

End Py.

(** ** Results of fallible constructors *)

(** The failures of this module, one constructor for each place that raises,
    named as the specification names it where it does; the payload is the
    message of the Python exception. *)
Inductive error : Type :=
  | InvalidIdentifier (msg : string)
      (* AssertionError of DatasetId.__post_init__ *)
  | InvalidTag (raw : string)
      (* the failure of bcp47 on a raw tag *)
  | MalformedIdentifierString (msg : string)
      (* Exception raised by DatasetId.parse *)
  | EmptySeparator
      (* ValueError of str.split on an empty delimiter *)
  | DotPrefixedExt (msg : string)
      (* AssertionError: ext starts with a dot *)
  | ArchiveSpecError (msg : string)
      (* archive entry without in_paths (AssertionError) or in_ext (Exception) *)
  | InvalidEntryShape (msg : string)
      (* AssertionError: in_paths on a non archive entry *)
  | EmptyEntryError.
      (* AssertionError of Experiment.__post_init__ *)

Inductive result (A : Type) : Type :=
  | OK (a : A)
  | Error (e : error).
Arguments OK {A} a.
Arguments Error {A} e.

Definition bind {A B : Type} (r : result A) (k : A -> result B) : result B :=
  match r with
  | OK a => k a
  | Error e => Error e
  end.

Notation "'do' x <- r ; k" := (bind r (fun x => k))
  (at level 10, x name, r at level 100, k at level 200).

(** [assert cond, msg] *)
Definition assert (cond : bool) (e : error) : result unit :=
  if cond then OK tt else Error e.

(** ** External collaborators *)

(** [mtdata.iso.bcp47]: the class [BCP47Tag], the normaliser [bcp47] on a raw
    string and on a value that is a tag already (here [None] when it
    raises), and [str(tag)].  A tag is a value of a class of its own, never
    equal to a [str]; two tags are [==] when they are the same value of
    [BCP47Tag]. *)
Class TagService : Type := {
  BCP47Tag : Type;
  BCP47Tag_eq_dec :: EqDecision BCP47Tag;
  bcp47 : string -> option BCP47Tag;
  bcp47_on_tag : BCP47Tag -> option BCP47Tag;
  tag_str : BCP47Tag -> string
}.

(** [mtdata.parser.detect_extension] *)
Class ExtensionService : Type := {
  detect_extension : string -> string
}.

(** A value found in a tuple of languages: a raw string or a tag. *)
Inductive pyval `{TagService} : Type :=
  | PStr (s : string)
  | PTag (t : BCP47Tag).

#[global] Instance pyval_eq_dec `{TagService} : EqDecision pyval.
Proof. solve_decision. Defined.

(** [a == b] on such values. *)
Definition pyval_eqb `{TagService} (a b : pyval) : bool :=
  match a, b with
  | PStr s, PStr s' => String.eqb s s'
  | PTag t, PTag t' => bool_decide (t = t')
  | _, _ => false
  end.

(** [tuple(a) == tuple(b)]: the same length and equal items. *)
Fixpoint tuple_eqb `{TagService} (a b : list pyval) : bool :=
  match a, b with
  | [], [] => true
  | x :: a', y :: b' => pyval_eqb x y && tuple_eqb a' b'
  | _, _ => false
  end.

Definition DID_DELIM : string := "-".

(** ** DatasetId *)

Module DatasetId.
Section WithTags.
Context `{TagService}.

(** The frozen dataclass: [langs] holds the tags after normalisation. *)
Record t : Type := mk {
  group : string;
  name : string;
  version : string;
  langs : list BCP47Tag
}.

(** The characters no field may contain. *)
Definition RESERVED : string := "-/*|[](){}<>?&:;,!^$" +:+ Py.dquote +:+ "' ".

(** The first character of [chs] that occurs in [s]: the inner loop
    [for ch in RESERVED: assert ch not in name]. *)
Fixpoint first_reserved (chs s : string) : option ascii :=
  match chs with
  | EmptyString => None
  | String ch chs' =>
      if Py.contains_char ch s then Some ch else first_reserved chs' s
  end.

Definition not_permitted_msg (ch : ascii) (s : string) : string :=
  "Character '" +:+ String ch EmptyString +:+ "' is not permitted in name " +:+ s.

(** The outer loop [for name in [group, version, name]]. *)
Fixpoint check_reserved (fields : list string) : result unit :=
  match fields with
  | [] => OK tt
  | s :: rest =>
      match first_reserved RESERVED s with
      | Some ch => Error (InvalidIdentifier (not_permitted_msg ch s))
      | None => check_reserved rest
      end
  end.

(** [lang if isinstance(lang, BCP47Tag) else bcp47(lang)] *)
Definition normalize (v : pyval) : result BCP47Tag :=
  match v with
  | PTag tg => OK tg
  | PStr s => match bcp47 s with Some tg => OK tg | None => Error (InvalidTag s) end
  end.

Fixpoint normalize_all (vs : list pyval) : result (list BCP47Tag) :=
  match vs with
  | [] => OK []
  | v :: rest =>
      do tg <- normalize v;
      do tgs <- normalize_all rest;
      OK (tg :: tgs)
  end.

Definition lower_msg (n : string) : string :=
  "name " +:+ n +:+ " has to be lower cased for consistency".

(** The constructor [DatasetId(group, name, version, langs)], that is the
    generated [__init__] followed by [__post_init__].  [langs] is a tuple by
    its type, which is what the [isinstance] assertion asks.  The field
    [langs] ends as the tuple of the normalised tags: it is replaced by that
    tuple when it differs from it, and equals it otherwise. *)
Definition __post_init__ (group name version : string) (langs : list pyval)
  : result t :=
  do _ <- assert (Py.truthy group) (InvalidIdentifier "");
  do _ <- assert (Py.truthy name) (InvalidIdentifier "");
  do _ <- assert (Py.truthy version) (InvalidIdentifier "");
  do _ <- assert (Py.islower name) (InvalidIdentifier (lower_msg name));
  do _ <- check_reserved [group; version; name];
  do tgs <- normalize_all langs;
  OK (mk group name version tgs).

(** The property [lang_str]. *)
Definition lang_str (d : t) : string :=
  Py.join DID_DELIM (map tag_str (langs d)).

Definition format (d : t) (delim : string) : string :=
  Py.join delim [group d; name d; version d; lang_str d].

(** [str(did)] *)
Definition __str__ (d : t) : string := format d DID_DELIM.

Definition expected_format (delim : string) : string :=
  "<group>" +:+ delim +:+ "<name>" +:+ delim +:+ "<version>" +:+ delim
  +:+ "<l1>" +:+ delim +:+ "<l2>".

Definition parse_msg (s delim : string) : string :=
  "Dataset ID expected in format: " +:+ expected_format delim
  +:+ "; but given " +:+ s +:+ "."
  +:+ " If you are unsure, run " +:+ Py.dquote
  +:+ "mtdata list | cut -f1 | grep -i <name>" +:+ Py.dquote
  +:+ " and copy its id.".

Definition parse (s delim : string) : result t :=
  match Py.split delim (Py.strip s) with
  | None => Error EmptySeparator
  | Some parts =>
      match parts with
      | [group; name; version; lang1; lang2] =>
          __post_init__ group name version [PStr lang1; PStr lang2]
      | _ => Error (MalformedIdentifierString (parse_msg s delim))
      end
  end.

End WithTags.
End DatasetId.

(** ** A deterministic stand-in for the tag service

    Three languages; a two-letter or a three-letter code is normalised to
    the tag whose string is the three-letter code. *)
Inductive fake_tag : Type := Eng | Fra | Deu.

#[global] Instance fake_tag_eq_dec : EqDecision fake_tag.
Proof. solve_decision. Defined.

Definition fake_bcp47 (s : string) : option fake_tag :=
  if String.eqb s "en" || String.eqb s "eng" then Some Eng
  else if String.eqb s "fr" || String.eqb s "fra" then Some Fra
  else if String.eqb s "de" || String.eqb s "deu" then Some Deu
  else None.

Definition fake_tag_str (tg : fake_tag) : string :=
  match tg with Eng => "eng" | Fra => "fra" | Deu => "deu" end.

Definition fake_tags : TagService :=
  {| BCP47Tag := fake_tag; bcp47 := fake_bcp47; bcp47_on_tag := Some;
     tag_str := fake_tag_str |}.

(** ** Entry *)

Module Entry.
Section WithServices.
Context `{TagService} `{ExtensionService}.

Record t : Type := mk {
  did : DatasetId.t;
  url : string;
  filename : string;
  ext : string;
  in_paths : option (list string);
  in_ext : option string;
  cite : option string;
  cols : option (Z * Z);
  is_archive : bool
}.

(** Truth value of an optional string: [None] and [''] are false. *)
Definition truthy_str (o : option string) : bool :=
  match o with
  | Some s => Py.truthy s
  | None => false
  end.

(** Truth value of an optional list: [None] and [[]] are false. *)
Definition truthy_list {A : Type} (o : option (list A)) : bool :=
  match o with
  | Some (_ :: _) => true
  | _ => false
  end.

(** [o or default] *)
Definition or_else (o : option string) (default : string) : string :=
  match o with
  | Some s => if Py.truthy s then s else default
  | None => default
  end.

(** [url.split('/')[-1]] *)
Definition orig_name (url : string) : string :=
  match Py.split "/" url with
  | Some parts => List.last parts EmptyString
  | None => EmptyString
  end.

Definition ARCHIVE_EXTS : list string := ["zip"; "tar"; "tar.gz"; "tgz"].

(** [x in seq] on strings. *)
Definition str_in (x : string) (l : list string) : bool :=
  existsb (String.eqb x) l.

(** [self.in_ext != 'opus_xces'], and [self.in_ext == 'tmx'] below. *)
Definition in_ext_is (o : option string) (s : string) : bool :=
  match o with
  | Some x => String.eqb x s
  | None => false
  end.

Definition dot_msg (e : string) : string :=
  "ext " +:+ e +:+ " should not start with a dot (.)".

Definition no_in_paths_msg (e : string) : string :=
  "in_paths is not applicable for non archive format " +:+ e.

(** The ext the constructor settles on: the argument when it is given and
    not empty, else what the detection service answers on the file name,
    or on the last segment of the url. *)
Definition resolve_ext (url : string) (filename ext : option string) : string :=
  match ext with
  | Some e => if Py.truthy e then e else detect_extension (or_else filename (orig_name url))
  | None => detect_extension (or_else filename (orig_name url))
  end.

(** The archive and non archive consistency rules, lines 87 to 93. *)
Definition check_shape (ext : string) (archive : bool)
    (in_paths : option (list string)) (in_ext : option string) : result unit :=
  if archive then
    do _ <- assert (truthy_list in_paths)
              (ArchiveSpecError "Archive entries must have in_paths");
    if negb (truthy_str in_ext)
    then Error (ArchiveSpecError "in_ext is required for archive files")
    else OK tt
  else
    if negb (in_ext_is in_ext "opus_xces")
    then assert (negb (truthy_list in_paths)) (InvalidEntryShape (no_in_paths_msg ext))
    else OK tt.

(** [Entry(did, url, filename, ext, in_paths, in_ext, cite, cols)]; [did] is a
    [DatasetId] by its type. *)
Definition __init__ (did : DatasetId.t) (url : string)
    (filename ext : option string) (in_paths : option (list string))
    (in_ext cite : option string) (cols : option (Z * Z)) : result t :=
  let ext' := resolve_ext url filename ext in
  let filename' := or_else filename (DatasetId.name did +:+ "." +:+ ext') in
  do _ <- assert (negb (Py.startswith "." ext')) (DotPrefixedExt (dot_msg ext'));
  let archive := str_in ext' ARCHIVE_EXTS in
  do _ <- check_shape ext' archive in_paths in_ext;
  OK (mk did url filename' ext' in_paths in_ext cite cols archive).

Definition lang_str (e : t) : string := DatasetId.lang_str (did e).

(** [is_swap(langs)]: [tuple(self.lang_str)] is the tuple of the characters
    of the string [lang_str]. *)
Definition is_swap (e : t) (langs : list pyval) : bool :=
  if in_ext_is (in_ext e) "tmx" then false
  else tuple_eqb (rev langs) (map PStr (Py.chars (lang_str e))).

Definition format (e : t) (delim : string) : string :=
  DatasetId.__str__ (did e) +:+ delim +:+ url e +:+ delim
  +:+ Py.join "," (default [] (in_paths e)).

Definition __str__ (e : t) : string := format e " ".

(** [is_noisy(seg1, seg2)]; a segment is a string or [None]. *)
Definition is_noisy (seg1 seg2 : option string) : bool :=
  match seg1, seg2 with
  | None, _ => true
  | _, None => true
  | Some s1, Some s2 => negb (Py.truthy (Py.strip s1)) || negb (Py.truthy (Py.strip s2))
  end.

End WithServices.
End Entry.

(** ** Objects with identity

    An [Experiment], its [papers] set and a [Paper] are mutable objects: each
    lives in a store under its identity, and a field that refers to one holds
    the identity.  A lookup that finds nothing stands for a reference to an
    object that was never created, which no Python program holds. *)

Definition loc : Type := positive.

Record heap (E P : Type) : Type := mkHeap {
  sets : gmap loc (gset loc);
  exps : gmap loc E;
  paps : gmap loc P
}.
Arguments mkHeap {E P} _ _ _.
Arguments sets {E P} _.
Arguments exps {E P} _.
Arguments paps {E P} _.

Definition empty_heap {E P : Type} : heap E P := mkHeap ∅ ∅ ∅.

(** ** Experiment *)

Module Experiment.
Section WithTags.
Context `{TagService}.

Record t : Type := mk {
  langs : list BCP47Tag;
  train : list Entry.t;
  tests : list Entry.t;
  papers : loc
}.

Definition is_tag (v : pyval) : bool :=
  match v with PTag _ => true | PStr _ => false end.

(** [bcp47(l)] on either kind of value. *)
Definition bcp47_val (v : pyval) : result BCP47Tag :=
  match v with
  | PStr s => match bcp47 s with Some tg => OK tg | None => Error (InvalidTag s) end
  | PTag t0 =>
      match bcp47_on_tag t0 with
      | Some tg => OK tg
      | None => Error (InvalidTag (tag_str t0))
      end
  end.

Fixpoint bcp47_all (vs : list pyval) : result (list BCP47Tag) :=
  match vs with
  | [] => OK []
  | v :: rest =>
      do tg <- bcp47_val v;
      do tgs <- bcp47_all rest;
      OK (tg :: tgs)
  end.

(** The tags of a tuple that holds tags only. *)
Fixpoint tags_of (vs : list pyval) : list BCP47Tag :=
  match vs with
  | [] => []
  | PTag tg :: rest => tg :: tags_of rest
  | PStr _ :: rest => tags_of rest
  end.

(** [for t in entries: assert t]: an entry object is true, [None] is not. *)
Fixpoint all_present (entries : list (option Entry.t)) : result (list Entry.t) :=
  match entries with
  | [] => OK []
  | Some e :: rest => do es <- all_present rest; OK (e :: es)
  | None :: _ => Error EmptyEntryError
  end.

(** [Experiment(langs, train, tests, papers)]: with no [papers] argument the
    default factory makes a new empty set.  Returns the identity of the new
    experiment. *)
Definition __post_init__ {P : Type} (h : heap t P) (langs : list pyval)
    (train tests : list (option Entry.t)) (papers : option loc)
  : result (loc * heap t P) :=
  let '(s, sets1) :=
    match papers with
    | Some s => (s, sets h)
    | None => let s := fresh (dom (sets h)) in (s, <[s := ∅]> (sets h))
    end in
  do langs' <- (if existsb (fun v => negb (is_tag v)) langs
                then bcp47_all langs else OK (tags_of langs));
  do tests' <- all_present tests;
  do train' <- all_present train;
  let e := fresh (dom (exps h)) in
  OK (e, mkHeap sets1 (<[e := mk langs' train' tests' s]> (exps h)) (paps h)).

(** What [make] answers: an experiment, the failure of the index on a name,
    or a failure of the constructor. *)
Inductive made (A : Type) : Type :=
  | Made (a : A)
  | LookupFailed (name : string)
  | Refused (e : error).
Arguments Made {A} a.
Arguments LookupFailed {A} name.
Arguments Refused {A} e.

(** [[index.get_entry(name, langs) for name in names]].  The index belongs to
    the caller: [index name langs] is [None] when the lookup raises, and else
    what it returns, an entry or [None]. *)
Fixpoint get_entries (index : string -> list pyval -> option (option Entry.t))
    (langs : list pyval) (names : list string)
  : string + list (option Entry.t) :=
  match names with
  | [] => inr []
  | n :: rest =>
      match index n langs with
      | None => inl n
      | Some e =>
          match get_entries index langs rest with
          | inl bad => inl bad
          | inr es => inr (e :: es)
          end
      end
  end.

(** [Experiment.make(index, langs, train, tests)] *)
Definition make {P : Type} (h : heap t P)
    (index : string -> list pyval -> option (option Entry.t))
    (langs : list pyval) (train tests : list string)
  : made (loc * heap t P) :=
  match get_entries index langs train with
  | inl bad => LookupFailed bad
  | inr train' =>
      match get_entries index langs tests with
      | inl bad => LookupFailed bad
      | inr tests' =>
          match __post_init__ h langs train' tests' None with
          | OK r => Made r
          | Error e => Refused e
          end
      end
  end.

End WithTags.
Arguments Made {A} a.
Arguments LookupFailed {A} name.
Arguments Refused {A} e.
End Experiment.

(** ** Paper *)

Module Paper.
Section WithTags.
Context `{TagService}.

(** [langs] is a set of tuples, kept as the list of its distinct members. *)
Record t : Type := mk {
  name : string;
  title : string;
  url : string;
  cite : string;
  experiments : list loc;
  langs : list (list pyval)
}.

Abbreviation store := (heap Experiment.t t).

(** [exp.papers.add(self)] *)
Definition add_paper (p : loc) (h : store) (e : loc) : option store :=
  x ← exps h !! e;
  S ← sets h !! Experiment.papers x;
  Some (mkHeap (<[Experiment.papers x := {[p]} ∪ S]> (sets h)) (exps h) (paps h)).

(** [for exp in self.experiments: exp.papers.add(self)] *)
Fixpoint add_paper_all (p : loc) (h : store) (es : list loc) : option store :=
  match es with
  | [] => Some h
  | e :: rest => h' ← add_paper p h e; add_paper_all p h' rest
  end.

(** [set(exp.langs for exp in self.experiments)] *)
Fixpoint langs_of (h : store) (es : list loc) : option (list (list pyval)) :=
  match es with
  | [] => Some []
  | e :: rest =>
      x ← exps h !! e;
      ls ← langs_of h rest;
      Some (map PTag (Experiment.langs x) :: ls)
  end.

(** [Paper(name, title, url, cite, experiments, langs)]: a new object, whose
    identity is returned, then [__post_init__].  The class is declared with
    [eq=False]: two papers are equal when they are the same object, so a set
    of papers is a set of identities. *)
Definition __post_init__ (h : store) (name title url cite : string)
    (experiments : list loc) (langs : option (list (list pyval)))
  : option (loc * store) :=
  let p := fresh (dom (paps h)) in
  langs' ← match langs with
           | Some (l :: ls) => Some (l :: ls)
           | _ => remove_dups <$> langs_of h experiments
           end;
  let h1 := mkHeap (sets h) (exps h)
              (<[p := mk name title url cite experiments langs']> (paps h)) in
  h2 ← add_paper_all p h1 experiments;
  Some (p, h2).

End WithTags.
End Paper.

(** A stand-in for the detection service: the text after the last dot. *)
Definition fake_detect (s : string) : string :=
  match Py.split "." s with
  | Some parts => List.last parts EmptyString
  | None => EmptyString
  end.

Definition fake_exts : ExtensionService := {| detect_extension := fake_detect |}.

(** ** Vocabulary of the statements *)

(** [sub] occurs in [s]. *)
Definition occurs_in (sub s : string) : Prop :=
  exists pre post, s = pre +:+ sub +:+ post.

Fixpoint last_char (s : string) : option ascii :=
  match s with
  | EmptyString => None
  | String c EmptyString => Some c
  | String _ s' => last_char s'
  end.

Definition starts_with_space (s : string) : bool :=
  match s with
  | EmptyString => false
  | String c _ => Py.isspace c
  end.

Definition ends_with_space (s : string) : bool :=
  match last_char s with
  | Some c => Py.isspace c
  | None => false
  end.

(** The number of occurrences of a character. *)
Fixpoint count_char (ch : ascii) (s : string) : nat :=
  match s with
  | EmptyString => 0
  | String c s' => (if Ascii.eqb ch c then 1 else 0) + count_char ch s'
  end.

(** The tab character. *)
Definition tab : string := String "009"%char EmptyString.

(** The set behind [exp.papers], for the experiment with identity [e]. *)
Definition papers_of `{TagService} (h : heap Experiment.t Paper.t) (e : loc)
  : option (gset loc) :=
  x ← exps h !! e; sets h !! Experiment.papers x.

(** Every experiment of the list exists, and so does its set. *)
Definition all_allocated `{TagService} (h : heap Experiment.t Paper.t)
    (es : list loc) : Prop :=
  Forall (fun e => is_Some (papers_of h e)) es.

(** [s] holds one of the reserved characters. *)
Definition has_reserved (s : string) : bool :=
  Py.existsb_str (fun ch => Py.contains_char ch s) DatasetId.RESERVED.

(** The checks of the DatasetId constructor on its three strings. *)
Definition valid_fields (group name version : string) : bool :=
  Py.truthy group && Py.truthy name && Py.truthy version && Py.islower name
  && negb (has_reserved group) && negb (has_reserved version)
  && negb (has_reserved name).

(** ** Sample values, over the stand-in services *)

Definition sample_did : @DatasetId.t fake_tags :=
  @DatasetId.mk fake_tags "g" "news" "1" [Fra; Eng].

Definition sample_entry : @Entry.t fake_tags :=
  @Entry.mk fake_tags sample_did "http://host/path/news.tsv" "news.tsv" "tsv"
    None None None None false.

(** One experiment, with its own empty set of papers. *)
Definition sample_heap : heap (@Experiment.t fake_tags) (@Paper.t fake_tags) :=
  mkHeap {[1%positive := ∅]}
    {[1%positive := @Experiment.mk fake_tags [Eng; Fra] [] [] 1%positive]} ∅.

(** An index that knows the one name [news]. *)
Definition sample_index (n : string) (langs : list (@pyval fake_tags))
  : option (option (@Entry.t fake_tags)) :=
  if String.eqb n "news" then Some (Some sample_entry) else None.

(** A monolingual identifier. *)
Definition sample_mono : @DatasetId.t fake_tags :=
  @DatasetId.mk fake_tags "g" "news" "1" [Eng].

(** * Properties *)

(** ** Strings *)

Lemma append_cons (c : ascii) (s u : string) :
  String c s +:+ u = String c (s +:+ u).
Proof. reflexivity. Qed.

Lemma append_nil_l (u : string) : "" +:+ u = u.
Proof. reflexivity. Qed.

Lemma append_nil_r (s : string) : s +:+ "" = s.
Proof.
  induction s as [|c s IH]; [reflexivity |].
  now rewrite append_cons, IH.
Qed.

Lemma append_assoc (a b c : string) : (a +:+ b) +:+ c = a +:+ b +:+ c.
Proof.
  induction a as [|x a IH]; [reflexivity |].
  now rewrite !append_cons, IH.
Qed.

Lemma truthy_false (s : string) : Py.truthy s = false <-> s = "".
Proof. destruct s; simpl; split; congruence. Qed.

Lemma lstrip_all_space (s : string) :
  Py.lstrip s = "" <-> Py.forallb_str Py.isspace s = true.
Proof.
  induction s as [|c s IH]; simpl; [tauto |].
  destruct (Py.isspace c); simpl; [exact IH | split; discriminate].
Qed.

Lemma rstrip_empty (s : string) :
  Py.rstrip s = "" <-> Py.forallb_str Py.isspace s = true.
Proof.
  induction s as [|c s IH]; simpl; [tauto |].
  destruct (Py.rstrip s) eqn:E.
  - destruct (Py.isspace c); simpl.
    + split; [intros _; now apply IH | reflexivity].
    + split; discriminate.
  - split; [discriminate |].
    intros Hc. apply andb_true_iff in Hc as [_ Hs].
    apply IH in Hs. discriminate.
Qed.

Lemma forallb_lstrip (p : ascii -> bool) (s : string) :
  Py.forallb_str p s = true -> Py.forallb_str p (Py.lstrip s) = true.
Proof.
  induction s as [|c s IH]; simpl; [trivial |].
  intros Hc. apply andb_true_iff in Hc as [Hc Hs].
  destruct (Py.isspace c); [auto | simpl; now rewrite Hc, Hs].
Qed.

(** A string strips to nothing exactly when it holds whitespace only. *)
Lemma strip_empty_iff (s : string) :
  Py.strip s = "" <-> Py.forallb_str Py.isspace s = true.
Proof.
  unfold Py.strip. rewrite rstrip_empty. split.
  - intros Hs. induction s as [|c s IH]; simpl in *; [reflexivity |].
    destruct (Py.isspace c) eqn:Ec; simpl; [auto |].
    simpl in Hs. rewrite Ec in Hs. discriminate.
  - apply forallb_lstrip.
Qed.

(** ** Entry.is_noisy *)

Lemma not_truthy_strip (s : string) :
  negb (Py.truthy (Py.strip s)) = true <-> Py.strip s = "".
Proof. rewrite negb_true_iff. apply truthy_false. Qed.

(** A pair is noisy as soon as its first segment holds whitespace only. *)
Lemma is_noisy_blank (s1 s2 : string) :
  Py.forallb_str Py.isspace s1 = true -> Entry.is_noisy (Some s1) (Some s2) = true.
Proof.
  intros Hs. cbn [Entry.is_noisy]. apply orb_true_iff. left.
  now apply not_truthy_strip, strip_empty_iff.
Qed.

(** C9. [is_noisy(seg1, seg2)] is true exactly when [seg1] is [None], or
    [seg2] is [None], or [seg1] stripped of whitespace is empty, or [seg2]
    stripped of whitespace is empty; [is_noisy(None, 'hello')] and
    [is_noisy('  ', 'hi')] are true and [is_noisy('hi', 'there')] is false. *)
Theorem is_noisy_iff :
  (forall seg1 seg2 : option string,
     Entry.is_noisy seg1 seg2 = true <->
     seg1 = None \/ seg2 = None
     \/ (exists s, seg1 = Some s /\ Py.strip s = "")
     \/ (exists s, seg2 = Some s /\ Py.strip s = ""))
  /\ Entry.is_noisy None (Some "hello") = true
  /\ Entry.is_noisy (Some "  ") (Some "hi") = true
  /\ Entry.is_noisy (Some "hi") (Some "there") = false.
Proof.
  split; [| repeat split; reflexivity].
  intros [s1|] [s2|]; cbn [Entry.is_noisy].
  - rewrite orb_true_iff, !not_truthy_strip. split.
    + intros [E|E]; [right; right; left | right; right; right]; eauto.
    + intros [E|[E|[(s & E & Hs)|(s & E & Hs)]]]; try discriminate;
        injection E as <-; auto.
  - split; auto.
  - split; auto.
  - split; auto.
Qed.

(** ** DatasetId: the checks of the constructor *)

Section DatasetIdChecks.
Context `{TagService}.

Lemma cased_free_not_lower (s : string) :
  Py.existsb_str Py.iscased s = false -> Py.islower s = false.
Proof.
  intros Hs. unfold Py.islower.
  assert (Py.existsb_str Py.islower_ch s = false) as ->;
    [| apply andb_false_r].
  induction s as [|c s IH]; simpl in *; [reflexivity |].
  apply orb_false_iff in Hs as [Hc Hs].
  unfold Py.iscased in Hc. apply orb_false_iff in Hc as [_ Hc].
  now rewrite Hc, IH.
Qed.

(** A name that is not lower case never gets through the constructor, whatever
    the other fields are. *)
Lemma not_lower_rejected (group name version : string) (langs : list pyval) :
  Py.islower name = false ->
  exists m, DatasetId.__post_init__ group name version langs
            = Error (InvalidIdentifier m).
Proof.
  intros Hl. unfold DatasetId.__post_init__.
  destruct group as [|g0 g]; cbn [Py.truthy assert bind]; [eauto |].
  destruct name as [|n0 n]; cbn [Py.truthy assert bind]; [eauto |].
  destruct version as [|v0 v]; cbn [Py.truthy assert bind]; [eauto |].
  rewrite Hl. cbn [assert bind]. eauto.
Qed.

Lemma check_reserved_ok (fields : list string) :
  Forall (fun s => DatasetId.first_reserved DatasetId.RESERVED s = None) fields ->
  DatasetId.check_reserved fields = OK tt.
Proof.
  induction 1 as [|s rest Hs _ IH]; cbn [DatasetId.check_reserved];
    [reflexivity |].
  now rewrite Hs.
Qed.

Lemma check_reserved_inv (fields : list string) :
  DatasetId.check_reserved fields = OK tt ->
  Forall (fun s => DatasetId.first_reserved DatasetId.RESERVED s = None) fields.
Proof.
  induction fields as [|s rest IH]; cbn [DatasetId.check_reserved];
    [constructor |].
  destruct (DatasetId.first_reserved DatasetId.RESERVED s) eqn:E;
    [discriminate | auto].
Qed.

(** What a successful construction tells about its arguments. *)
Lemma post_init_ok_inv (group name version : string) (langs : list pyval)
    (d : DatasetId.t) :
  DatasetId.__post_init__ group name version langs = OK d ->
  group <> "" /\ name <> "" /\ version <> "" /\ Py.islower name = true
  /\ Forall (fun s => DatasetId.first_reserved DatasetId.RESERVED s = None)
       [group; version; name]
  /\ exists tgs, DatasetId.normalize_all langs = OK tgs
                 /\ d = DatasetId.mk group name version tgs.
Proof.
  unfold DatasetId.__post_init__.
  destruct group as [|g0 g]; cbn [Py.truthy assert bind]; [discriminate |].
  destruct name as [|n0 n]; cbn [Py.truthy assert bind]; [discriminate |].
  destruct version as [|v0 v]; cbn [Py.truthy assert bind]; [discriminate |].
  destruct (Py.islower (String n0 n)) eqn:El; cbn [assert bind];
    [| discriminate].
  destruct (DatasetId.check_reserved [String g0 g; String v0 v; String n0 n])
    as [[]|] eqn:Ec; cbn [bind]; [| discriminate].
  destruct (DatasetId.normalize_all langs) as [tgs|] eqn:En; cbn [bind];
    [| discriminate].
  intros [= <-]. repeat split; try discriminate.
  - now apply check_reserved_inv.
  - eauto.
Qed.

Lemma post_init_ok (group name version : string) (langs : list pyval)
    (tgs : list BCP47Tag) :
  group <> "" -> name <> "" -> version <> "" -> Py.islower name = true ->
  Forall (fun s => DatasetId.first_reserved DatasetId.RESERVED s = None)
    [group; version; name] ->
  DatasetId.normalize_all langs = OK tgs ->
  DatasetId.__post_init__ group name version langs
  = OK (DatasetId.mk group name version tgs).
Proof.
  intros Hg Hn Hv Hl Hr Ht. unfold DatasetId.__post_init__.
  destruct group as [|g0 g]; [congruence |].
  destruct name as [|n0 n]; [congruence |].
  destruct version as [|v0 v]; [congruence |].
  cbn [Py.truthy assert bind]. rewrite Hl. cbn [assert bind].
  rewrite (check_reserved_ok _ Hr). cbn [bind].
  rewrite Ht. reflexivity.
Qed.

(** C10. Construction of a DatasetId fails for every name without a cased
    character, such as an all-digit name: [str.islower] is false on a string
    that has no cased character. *)
Theorem caseless_name_rejected (group name version : string) (langs : list pyval) :
  Py.existsb_str Py.iscased name = false ->
  Py.islower name = false
  /\ exists m, DatasetId.__post_init__ group name version langs
               = Error (InvalidIdentifier m).
Proof.
  intros Hc. pose proof (cased_free_not_lower _ Hc) as Hl.
  split; [exact Hl | now apply not_lower_rejected].
Qed.

(** C8. Construction with the name [News] fails with InvalidIdentifier; the
    same construction with the name [news] succeeds when the other fields are
    valid; construction fails whenever the name is not lower case. *)
Theorem name_case_rule :
  (forall group version langs,
     exists m, DatasetId.__post_init__ group "News" version langs
               = Error (InvalidIdentifier m))
  /\ (forall group version langs tgs,
        group <> "" -> version <> "" ->
        DatasetId.first_reserved DatasetId.RESERVED group = None ->
        DatasetId.first_reserved DatasetId.RESERVED version = None ->
        DatasetId.normalize_all langs = OK tgs ->
        DatasetId.__post_init__ group "news" version langs
        = OK (DatasetId.mk group "news" version tgs))
  /\ (forall group name version langs,
        Py.islower name = false ->
        exists m, DatasetId.__post_init__ group name version langs
                  = Error (InvalidIdentifier m)).
Proof.
  split; [| split].
  - intros. now apply not_lower_rejected.
  - intros group version langs tgs Hg Hv Hrg Hrv Ht.
    apply post_init_ok; auto; discriminate.
  - intros. now apply not_lower_rejected.
Qed.

End DatasetIdChecks.

(** ** Splitting on the delimiter *)

Lemma split_scan_dash (cur : string) (c : ascii) (s : string) :
  Py.split_scan "-" 0 cur (String c s)
  = if Ascii.eqb "-" c then cur :: Py.split_scan "-" 0 "" s
    else Py.split_scan "-" 0 (cur +:+ String c "") s.
Proof.
  cbn [Py.split_scan Py.startswith]. rewrite andb_true_r. reflexivity.
Qed.

(** A string without the delimiter is one segment. *)
Lemma split_scan_plain (a cur : string) :
  Py.contains_char "-" a = false ->
  Py.split_scan "-" 0 cur a = [cur +:+ a].
Proof.
  revert cur. induction a as [|c a IH]; intros cur Ha.
  - now rewrite append_nil_r.
  - unfold Py.contains_char in Ha. cbn [Py.existsb_str] in Ha.
    apply orb_false_iff in Ha as [Hc Ha].
    rewrite split_scan_dash, Hc, IH by exact Ha.
    now rewrite append_assoc.
Qed.

(** The first segment ends at the first delimiter. *)
Lemma split_scan_segment (a cur rest : string) :
  Py.contains_char "-" a = false ->
  Py.split_scan "-" 0 cur (a +:+ "-" +:+ rest)
  = (cur +:+ a) :: Py.split_scan "-" 0 "" rest.
Proof.
  revert cur. induction a as [|c a IH]; intros cur Ha.
  - rewrite append_nil_l, append_nil_r, append_cons, append_nil_l.
    now rewrite split_scan_dash.
  - unfold Py.contains_char in Ha. cbn [Py.existsb_str] in Ha.
    apply orb_false_iff in Ha as [Hc Ha].
    rewrite append_cons, split_scan_dash, Hc, IH by exact Ha.
    now rewrite append_assoc.
Qed.

(** There is one segment more than there are delimiters. *)
Lemma split_scan_length (s cur : string) :
  length (Py.split_scan "-" 0 cur s) = S (count_char "-" s).
Proof.
  revert cur. induction s as [|c s IH]; intros cur; [reflexivity |].
  rewrite split_scan_dash. cbn [count_char].
  destruct (Ascii.eqb "-" c); cbn [length]; now rewrite IH.
Qed.

(** ** Stripping *)

Lemma lstrip_id (s : string) : starts_with_space s = false -> Py.lstrip s = s.
Proof. destruct s as [|c s]; simpl; [reflexivity | now intros ->]. Qed.

Lemma rstrip_id (s : string) : ends_with_space s = false -> Py.rstrip s = s.
Proof.
  unfold ends_with_space. induction s as [|c s IH]; [reflexivity |].
  cbn [last_char Py.rstrip]. destruct s as [|c' s].
  - cbn [Py.rstrip]. now intros ->.
  - intros Hs. now rewrite (IH Hs).
Qed.

Lemma strip_id (s : string) :
  starts_with_space s = false -> ends_with_space s = false -> Py.strip s = s.
Proof.
  intros Hl Hr. unfold Py.strip. rewrite (lstrip_id _ Hl). now apply rstrip_id.
Qed.

Lemma last_char_append (a b : string) :
  b <> "" -> last_char (a +:+ b) = last_char b.
Proof.
  intros Hb. induction a as [|c a IH]; [reflexivity |].
  rewrite append_cons. cbn [last_char]. rewrite IH.
  destruct (a +:+ b) eqn:E; [| reflexivity].
  destruct a; [rewrite append_nil_l in E; congruence | discriminate].
Qed.

Lemma ends_with_space_append (a b : string) :
  b <> "" -> ends_with_space (a +:+ b) = ends_with_space b.
Proof. intros Hb. unfold ends_with_space. now rewrite last_char_append. Qed.

Lemma append_nonempty_l (a b : string) : a <> "" -> a +:+ b <> "".
Proof. destruct a; [congruence | discriminate]. Qed.

Lemma append_nonempty_r (a b : string) : b <> "" -> a +:+ b <> "".
Proof.
  intros Hb. destruct a; [now rewrite append_nil_l | discriminate].
Qed.

Lemma ends_with_space_field (a rest : string) :
  rest <> "" ->
  ends_with_space (a +:+ "-" +:+ rest) = ends_with_space rest.
Proof.
  intros Hr. rewrite ends_with_space_append by (now apply append_nonempty_r).
  now apply ends_with_space_append.
Qed.

Lemma starts_with_space_append (a b : string) :
  a <> "" -> starts_with_space (a +:+ b) = starts_with_space a.
Proof. destruct a; [congruence | reflexivity]. Qed.

(** ** DatasetId: format and parse *)

Section FormatParse.
Context `{TagService}.

Lemma reserved_free_no_dash (s : string) :
  DatasetId.first_reserved DatasetId.RESERVED s = None ->
  Py.contains_char "-" s = false.
Proof.
  assert (exists r, DatasetId.RESERVED = String "-" r) as [r ->]
    by (eexists; reflexivity).
  cbn [DatasetId.first_reserved].
  destruct (Py.contains_char "-" s); [discriminate | reflexivity].
Qed.

(** The constructor never answers with the error of [parse]. *)
Lemma post_init_error_kind (group name version : string) (langs : list pyval)
    (e : error) :
  DatasetId.__post_init__ group name version langs = Error e ->
  (exists m, e = InvalidIdentifier m) \/ (exists raw, e = InvalidTag raw).
Proof.
  unfold DatasetId.__post_init__.
  destruct (Py.truthy group); cbn [assert bind]; [| intros [= <-]; eauto].
  destruct (Py.truthy name); cbn [assert bind]; [| intros [= <-]; eauto].
  destruct (Py.truthy version); cbn [assert bind]; [| intros [= <-]; eauto].
  destruct (Py.islower name); cbn [assert bind]; [| intros [= <-]; eauto].
  destruct (DatasetId.check_reserved [group; version; name]) as [[]|e'] eqn:Ec;
    cbn [bind].
  - destruct (DatasetId.normalize_all langs) as [tgs|e'] eqn:En; cbn [bind];
      [discriminate |].
    intros [= <-]. right. clear Ec.
    revert e' En. induction langs as [|v vs IH]; intros e' En;
      cbn [DatasetId.normalize_all] in En; [discriminate |].
    destruct v as [s|tg]; cbn [DatasetId.normalize] in En.
    + destruct (bcp47 s); cbn [bind] in En; [| injection En as <-; eauto].
      destruct (DatasetId.normalize_all vs) as [tgs|e2]; cbn [bind] in En;
        [discriminate |].
      injection En as <-. now apply IH.
    + cbn [bind] in En.
      destruct (DatasetId.normalize_all vs) as [tgs|e2]; cbn [bind] in En;
        [discriminate |].
      injection En as <-. now apply IH.
  - intros [= <-]. left. clear -Ec.
    revert Ec. generalize [group; version; name].
    intros fields. induction fields as [|s rest IH];
      cbn [DatasetId.check_reserved]; [discriminate |].
    destruct (DatasetId.first_reserved DatasetId.RESERVED s);
      [intros [= <-]; eauto | exact IH].
Qed.

(** The value of [parse] with the default delimiter, by the number of
    segments. *)
Lemma parse_dash (s : string) :
  DatasetId.parse s DID_DELIM
  = match Py.split_scan "-" 0 "" (Py.strip s) with
    | [group; name; version; lang1; lang2] =>
        DatasetId.__post_init__ group name version [PStr lang1; PStr lang2]
    | _ => Error (MalformedIdentifierString (DatasetId.parse_msg s DID_DELIM))
    end.
Proof. reflexivity. Qed.

(** C3. With the default delimiter, [parse] fails with
    MalformedIdentifierString exactly when the stripped input splits into a
    number of segments other than 5, as [g-n-v-en] and [g-n-v-en-fr-extra]
    do; the message then shows the template
    [<group>-<name>-<version>-<l1>-<l2>] and points to the listing command
    [mtdata list]. *)
Theorem parse_malformed_iff :
  (forall s : string,
     exists parts,
       Py.split DID_DELIM (Py.strip s) = Some parts
       /\ length parts = S (count_char "-" (Py.strip s))
       /\ ((exists m, DatasetId.parse s DID_DELIM
                      = Error (MalformedIdentifierString m))
           <-> length parts <> 5))
  /\ (forall s m,
        DatasetId.parse s DID_DELIM = Error (MalformedIdentifierString m) ->
        occurs_in "<group>-<name>-<version>-<l1>-<l2>" m
        /\ occurs_in "mtdata list" m)
  /\ (exists m, DatasetId.parse "g-n-v-en" DID_DELIM
                = Error (MalformedIdentifierString m))
  /\ (exists m, DatasetId.parse "g-n-v-en-fr-extra" DID_DELIM
                = Error (MalformedIdentifierString m)).
Proof.
  assert (Hkind : forall s m,
            DatasetId.parse s DID_DELIM = Error (MalformedIdentifierString m) ->
            length (Py.split_scan "-" 0 "" (Py.strip s)) <> 5
            /\ m = DatasetId.parse_msg s DID_DELIM).
  { intros s m. rewrite parse_dash.
    destruct (Py.split_scan "-" 0 "" (Py.strip s))
      as [|a [|b [|c [|d [|e [|f rest]]]]]]; cbn [length];
      try (intros [= <-]; split; [lia | reflexivity]).
    intros Hp. apply post_init_error_kind in Hp as [[m' Hm]|[raw Hm]];
      discriminate. }
  split; [| split; [| split]].
  - intros s. exists (Py.split_scan "-" 0 "" (Py.strip s)).
    split; [reflexivity |]. split; [apply split_scan_length |]. split.
    + intros [m Hm]. now apply Hkind in Hm.
    + intros Hlen. rewrite parse_dash.
      destruct (Py.split_scan "-" 0 "" (Py.strip s))
        as [|a [|b [|c [|d [|e [|f rest]]]]]]; cbn [length] in Hlen;
        try (eexists; reflexivity).
      congruence.
  - intros s m Hm. apply Hkind in Hm as [_ ->]. split.
    + exists "Dataset ID expected in format: ". eexists. reflexivity.
    + exists ("Dataset ID expected in format: " +:+ DatasetId.expected_format DID_DELIM
              +:+ "; but given " +:+ s +:+ "."
              +:+ " If you are unsure, run " +:+ Py.dquote).
      exists (" | cut -f1 | grep -i <name>" +:+ Py.dquote +:+ " and copy its id.").
      unfold DatasetId.parse_msg. rewrite !append_assoc. reflexivity.
  - eexists. reflexivity.
  - eexists. reflexivity.
Qed.

(** C1, amended. A DatasetId built from two languages is read back from its
    canonical string, [parse(format(id)) == id], when its group does not
    begin with whitespace, its canonical string does not end with
    whitespace, and the string of each of its tags holds no delimiter and is
    normalised to that same tag; the raw tags given to the constructor may
    differ from the strings of the normalised tags. *)
Theorem parse_format_roundtrip (group name version : string) (a1 a2 : pyval)
    (d : DatasetId.t) :
  DatasetId.__post_init__ group name version [a1; a2] = OK d ->
  starts_with_space group = false ->
  ends_with_space (DatasetId.lang_str d) = false ->
  Forall (fun tg => Py.contains_char "-" (tag_str tg) = false
                    /\ bcp47 (tag_str tg) = Some tg) (DatasetId.langs d) ->
  DatasetId.parse (DatasetId.format d DID_DELIM) DID_DELIM = OK d.
Proof.
  intros Hd Hsp Hend Htags.
  apply post_init_ok_inv in Hd as (Hg & Hn & Hv & Hl & Hr & tgs & Hnorm & ->).
  assert (exists t1 t2, tgs = [t1; t2]) as (t1 & t2 & ->).
  { cbn [DatasetId.normalize_all] in Hnorm.
    destruct (DatasetId.normalize a1) as [t1|]; cbn [bind] in Hnorm;
      [| discriminate].
    destruct (DatasetId.normalize a2) as [t2|]; cbn [bind] in Hnorm;
      [| discriminate].
    injection Hnorm as <-. eauto. }
  cbn [DatasetId.langs] in Htags.
  apply Forall_cons in Htags as [[Hd1 Hb1] Htags].
  apply Forall_cons in Htags as [[Hd2 Hb2] _].
  pose proof Hr as Hr'.
  apply Forall_cons in Hr' as [Rg Hr'].
  apply Forall_cons in Hr' as [Rv Hr'].
  apply Forall_cons in Hr' as [Rn _].
  apply reserved_free_no_dash in Rg, Rv, Rn.
  unfold DatasetId.lang_str, DID_DELIM in Hend.
  cbn [DatasetId.langs map Py.join] in Hend.
  rewrite parse_dash. unfold DatasetId.format, DatasetId.lang_str, DID_DELIM.
  cbn [DatasetId.langs DatasetId.group DatasetId.name DatasetId.version
       map Py.join].
  rewrite strip_id.
  - rewrite !split_scan_segment, split_scan_plain by assumption.
    rewrite !append_nil_l.
    apply post_init_ok; auto.
    cbn [DatasetId.normalize_all DatasetId.normalize].
    now rewrite Hb1, Hb2.
  - now rewrite starts_with_space_append.
  - rewrite 3!ends_with_space_field; auto using append_nonempty_l.
    apply append_nonempty_r. discriminate.
Qed.

End FormatParse.

(** ** Entry: the constructor *)

Lemma str_in_archive (x : string) :
  Entry.str_in x Entry.ARCHIVE_EXTS = true
  <-> x = "zip" \/ x = "tar" \/ x = "tar.gz" \/ x = "tgz".
Proof.
  unfold Entry.str_in, Entry.ARCHIVE_EXTS. cbn [existsb].
  rewrite !orb_true_iff, !String.eqb_eq. intuition discriminate.
Qed.

Lemma archive_ext_no_dot (x : string) :
  Entry.str_in x Entry.ARCHIVE_EXTS = true -> Py.startswith "." x = false.
Proof.
  intros Hx. apply str_in_archive in Hx as [->|[->|[->| ->]]]; reflexivity.
Qed.

Lemma truthy_list_true {A : Type} (o : option (list A)) :
  Entry.truthy_list o = true <-> exists p ps, o = Some (p :: ps).
Proof.
  destruct o as [[|p ps]|]; cbn [Entry.truthy_list]; split;
    try discriminate; eauto.
  all: intros (p' & ps' & E); discriminate.
Qed.

Lemma truthy_str_true (o : option string) :
  Entry.truthy_str o = true <-> exists x, o = Some x /\ x <> "".
Proof.
  destruct o as [[|c x]|]; cbn [Entry.truthy_str Py.truthy]; split;
    try discriminate; try reflexivity.
  - intros (x' & [= <-] & Hx). congruence.
  - intros _. eexists. split; [reflexivity | discriminate].
  - intros (x' & E & _). discriminate.
Qed.

Section EntryInit.
Context `{TagService} `{ExtensionService}.

(** The constructor, once the ext is resolved: the dot check, then the shape
    check, then the object. *)
Lemma init_unfold did url filename ext in_paths in_ext cite cols :
  Entry.__init__ did url filename ext in_paths in_ext cite cols
  = let ext' := Entry.resolve_ext url filename ext in
    if Py.startswith "." ext' then Error (DotPrefixedExt (Entry.dot_msg ext'))
    else match Entry.check_shape ext' (Entry.str_in ext' Entry.ARCHIVE_EXTS)
                 in_paths in_ext with
         | OK _ =>
             OK (Entry.mk did url
                   (Entry.or_else filename (DatasetId.name did +:+ "." +:+ ext'))
                   ext' in_paths in_ext cite cols
                   (Entry.str_in ext' Entry.ARCHIVE_EXTS))
         | Error e => Error e
         end.
Proof.
  unfold Entry.__init__. cbv zeta.
  destruct (Py.startswith "." _); cbn [negb assert bind]; reflexivity.
Qed.

(** C7. On every entry that was constructed, [is_archive] is true exactly
    when the resolved ext is one of [zip], [tar], [tar.gz], [tgz]. *)
Theorem is_archive_iff did url filename ext in_paths in_ext cite cols
    (e : Entry.t) :
  Entry.__init__ did url filename ext in_paths in_ext cite cols = OK e ->
  Entry.ext e = Entry.resolve_ext url filename ext
  /\ (Entry.is_archive e = true
      <-> Entry.ext e = "zip" \/ Entry.ext e = "tar"
          \/ Entry.ext e = "tar.gz" \/ Entry.ext e = "tgz")
  /\ (Entry.is_archive e = false
      <-> Entry.ext e <> "zip" /\ Entry.ext e <> "tar"
          /\ Entry.ext e <> "tar.gz" /\ Entry.ext e <> "tgz").
Proof.
  rewrite init_unfold. cbv zeta.
  pose proof (str_in_archive (Entry.resolve_ext url filename ext)) as Hin.
  destruct (Py.startswith "." _); [discriminate |].
  destruct (Entry.str_in _ _);
    (destruct (Entry.check_shape _ _ _ _); [| discriminate]);
    intros [= <-]; cbn [Entry.ext Entry.is_archive];
    (split; [reflexivity |]); (split; [exact Hin |]).
  - split; [discriminate |]. intros (? & ? & ? & ?).
    destruct (proj1 Hin eq_refl) as [E|[E|[E|E]]]; congruence.
  - split; [| reflexivity]. intros _.
    repeat split; intros E; assert (false = true) by (apply Hin; auto);
      discriminate.
Qed.

(** C4, amended. When the resolved ext is an archive ext, construction fails
    with ArchiveSpecError if [in_paths] is [None] or empty, or if [in_ext] is
    [None] or the empty string; with a non-empty [in_paths] and a non-empty
    [in_ext] it succeeds and [is_archive] is true. *)
Theorem archive_entry_shape did url filename ext in_paths in_ext cite cols :
  Entry.str_in (Entry.resolve_ext url filename ext) Entry.ARCHIVE_EXTS = true ->
  (in_paths = None \/ in_paths = Some [] \/ in_ext = None \/ in_ext = Some "" ->
   exists m, Entry.__init__ did url filename ext in_paths in_ext cite cols
             = Error (ArchiveSpecError m))
  /\ (forall p ps x,
        in_paths = Some (p :: ps) -> in_ext = Some x -> x <> "" ->
        exists e, Entry.__init__ did url filename ext in_paths in_ext cite cols
                  = OK e
                  /\ Entry.is_archive e = true
                  /\ Entry.in_paths e = Some (p :: ps)
                  /\ Entry.in_ext e = Some x).
Proof.
  intros Ha. rewrite init_unfold. cbv zeta.
  rewrite (archive_ext_no_dot _ Ha), Ha. unfold Entry.check_shape. split.
  - intros Hbad.
    destruct (Entry.truthy_list in_paths) eqn:Ep; cbn [assert bind]; [| eauto].
    destruct (Entry.truthy_str in_ext) eqn:Ex; cbn [negb]; [| eauto].
    apply truthy_list_true in Ep as (p & ps & ->).
    apply truthy_str_true in Ex as (x & -> & Hx).
    destruct Hbad as [E|[E|[E|E]]]; congruence.
  - intros p ps x -> -> Hx. cbn [Entry.truthy_list assert bind].
    assert (Entry.truthy_str (Some x) = true) as ->
      by (apply truthy_str_true; eauto).
    cbn [negb]. eexists. split; [reflexivity |]. auto.
Qed.

(** C5, amended. When the resolved ext is not an archive ext and does not
    begin with a dot, construction fails with InvalidEntryShape if [in_paths]
    is non-empty and [in_ext] is not [opus_xces]; it succeeds if [in_ext] is
    [opus_xces], or if [in_paths] is [None] or empty. *)
Theorem plain_entry_shape did url filename ext in_paths in_ext cite cols :
  Entry.str_in (Entry.resolve_ext url filename ext) Entry.ARCHIVE_EXTS = false ->
  Py.startswith "." (Entry.resolve_ext url filename ext) = false ->
  (forall p ps,
     in_paths = Some (p :: ps) -> in_ext <> Some "opus_xces" ->
     exists m, Entry.__init__ did url filename ext in_paths in_ext cite cols
               = Error (InvalidEntryShape m))
  /\ (in_ext = Some "opus_xces" \/ in_paths = None \/ in_paths = Some [] ->
      exists e, Entry.__init__ did url filename ext in_paths in_ext cite cols
                = OK e
                /\ Entry.is_archive e = false
                /\ Entry.in_paths e = in_paths).
Proof.
  intros Ha Hdot. rewrite init_unfold. cbv zeta.
  rewrite Hdot, Ha. unfold Entry.check_shape. split.
  - intros p ps -> Hx.
    assert (Entry.in_ext_is in_ext "opus_xces" = false) as ->.
    { destruct in_ext as [x|]; cbn [Entry.in_ext_is]; [| reflexivity].
      apply String.eqb_neq. congruence. }
    cbn [negb Entry.truthy_list assert]. eauto.
  - intros Hok.
    destruct (Entry.in_ext_is in_ext "opus_xces") eqn:Ex; cbn [negb].
    + eexists. split; [reflexivity |]. auto.
    + destruct Hok as [->|[->| ->]].
      * cbn [Entry.in_ext_is] in Ex. discriminate.
      * cbn [Entry.truthy_list negb assert]. eexists. split; [reflexivity |]. auto.
      * cbn [Entry.truthy_list negb assert]. eexists. split; [reflexivity |]. auto.
Qed.

(** Without [in_paths], the non archive check is never the one that fails,
    whatever the ext. *)
Lemma no_in_paths_no_shape_error did url filename ext in_ext cite cols
    in_paths m :
  in_paths = None \/ in_paths = Some [] ->
  Entry.__init__ did url filename ext in_paths in_ext cite cols
  <> Error (InvalidEntryShape m).
Proof.
  intros Hp. rewrite init_unfold. cbv zeta.
  destruct (Py.startswith "." _); [discriminate |].
  unfold Entry.check_shape.
  destruct (Entry.str_in _ _).
  - destruct Hp as [-> | ->]; cbn [Entry.truthy_list assert bind]; discriminate.
  - destruct (negb (Entry.in_ext_is in_ext "opus_xces")); [| discriminate].
    destruct Hp as [-> | ->]; cbn [Entry.truthy_list negb assert]; discriminate.
Qed.

End EntryInit.

(** ** Entry.is_swap *)

Section Swap.
Context `{TagService}.

Lemma tuple_eqb_length (a b : list pyval) :
  tuple_eqb a b = true -> length a = length b.
Proof.
  revert b. induction a as [|x a IH]; intros [|y b]; cbn [tuple_eqb length];
    try discriminate; [reflexivity |].
  intros Hab. apply andb_true_iff in Hab as [_ Hab]. now rewrite (IH b).
Qed.

Lemma length_chars (s : string) : length (Py.chars s) = String.length s.
Proof. induction s as [|c s IH]; cbn [Py.chars length String.length]; congruence. Qed.

Lemma string_length_append (a b : string) :
  String.length (a +:+ b) = String.length a + String.length b.
Proof.
  induction a as [|c a IH]; [reflexivity |].
  rewrite append_cons. cbn [String.length]. now rewrite IH.
Qed.

Lemma string_length_pos (s : string) : s <> "" -> 0 < String.length s.
Proof. destruct s; [congruence | cbn [String.length]; lia]. Qed.

(** An entry in the [tmx] format is never swapped. *)
Lemma is_swap_tmx (e : Entry.t) (langs : list pyval) :
  Entry.in_ext e = Some "tmx" -> Entry.is_swap e langs = false.
Proof. intros He. unfold Entry.is_swap. now rewrite He. Qed.

(** When [is_swap] answers true, the pair it was given has as many items as
    [lang_str] has characters. *)
Lemma is_swap_true_length (e : Entry.t) (langs : list pyval) :
  Entry.is_swap e langs = true ->
  length langs = String.length (Entry.lang_str e).
Proof.
  unfold Entry.is_swap. destruct (Entry.in_ext_is _ _); [discriminate |].
  intros Heq. apply tuple_eqb_length in Heq.
  now rewrite length_rev, length_map, length_chars in Heq.
Qed.

(** C2, as the code behaves. On an entry of two languages whose tags have
    non-empty strings, [is_swap] is false on every pair, the reversed pair
    included: the pair is compared with the characters of [lang_str]. *)
Theorem is_swap_pair_false (e : Entry.t) (l1 l2 : BCP47Tag) (a b : pyval) :
  DatasetId.langs (Entry.did e) = [l1; l2] ->
  tag_str l1 <> "" -> tag_str l2 <> "" ->
  Entry.is_swap e [a; b] = false.
Proof.
  intros Hl H1 H2. apply not_true_is_false. intros Hs.
  apply is_swap_true_length in Hs.
  unfold Entry.lang_str, DatasetId.lang_str in Hs. rewrite Hl in Hs.
  cbn [map Py.join length] in Hs.
  rewrite !string_length_append in Hs.
  apply string_length_pos in H1, H2.
  change (String.length DID_DELIM) with 1 in Hs. lia.
Qed.

(** The reversed pair of tags is never found swapped, whatever the strings of
    the tags are. *)
Lemma is_swap_reversed_tags_false (e : Entry.t) (l1 l2 : BCP47Tag) :
  DatasetId.langs (Entry.did e) = [l1; l2] ->
  Entry.is_swap e [PTag l2; PTag l1] = false.
Proof.
  intros Hl. unfold Entry.is_swap. destruct (Entry.in_ext_is _ _); [reflexivity |].
  unfold Entry.lang_str, DatasetId.lang_str. rewrite Hl.
  cbn [map Py.join rev app].
  destruct (tag_str l1) as [|c s1]; reflexivity.
Qed.

End Swap.

(** ** Paper: registration in the experiments *)

Section PaperLinks.
Context `{TagService}.
Implicit Types (h : heap Experiment.t Paper.t) (p e : loc) (es : list loc).

Lemma add_paper_inv p h e h' :
  Paper.add_paper p h e = Some h' ->
  exists x S,
    exps h !! e = Some x /\ sets h !! Experiment.papers x = Some S
    /\ h' = mkHeap (<[Experiment.papers x := {[p]} ∪ S]> (sets h))
              (exps h) (paps h).
Proof.
  unfold Paper.add_paper. intros Hh.
  destruct (exps h !! e) as [x|] eqn:Ex; simpl in Hh; [| discriminate].
  destruct (sets h !! Experiment.papers x) as [S|] eqn:Es; simpl in Hh;
    [| discriminate].
  injection Hh as <-. eauto.
Qed.

(** One registration leaves every set as it was or adds the paper to it, and
    adds it to the set of the experiment it is run on. *)
Lemma add_paper_papers_of p h e h' e' (S : gset loc) :
  Paper.add_paper p h e = Some h' ->
  papers_of h e' = Some S ->
  exists S', papers_of h' e' = Some S'
             /\ (S' = S \/ S' = {[p]} ∪ S)
             /\ (e' = e -> S' = {[p]} ∪ S).
Proof.
  intros (x & Sx & Ex & Es & ->)%add_paper_inv. unfold papers_of.
  cbn [exps sets].
  destruct (exps h !! e') as [x'|] eqn:Ex'; simpl; [| discriminate].
  intros HS.
  destruct (decide (Experiment.papers x = Experiment.papers x')) as [Eq|Ne].
  - rewrite <- Eq, lookup_insert_eq. rewrite <- Eq, Es in HS.
    injection HS as <-. eauto.
  - rewrite lookup_insert_ne by exact Ne. exists S.
    split; [exact HS |]. split; [auto |].
    intros ->. congruence.
Qed.

Lemma add_paper_all_papers_of p es : forall h h' e' (S : gset loc),
  Paper.add_paper_all p h es = Some h' ->
  papers_of h e' = Some S ->
  exists S', papers_of h' e' = Some S'
             /\ (S' = S \/ S' = {[p]} ∪ S)
             /\ (e' ∈ es -> S' = {[p]} ∪ S).
Proof.
  induction es as [|e es IH]; intros h h' e' S Hall HS.
  - injection Hall as <-. exists S. split; [exact HS |]. split; [auto |].
    intros Hin. inversion Hin.
  - cbn [Paper.add_paper_all] in Hall.
    destruct (Paper.add_paper p h e) as [h1|] eqn:E1; simpl in Hall;
      [| discriminate].
    destruct (add_paper_papers_of _ _ _ _ _ _ E1 HS) as (S1 & HS1 & Hor1 & Heq1).
    destruct (IH _ _ _ _ Hall HS1) as (S' & HS' & Hor & Hin).
    exists S'. split; [exact HS' |].
    assert (Hidem : {[p]} ∪ ({[p]} ∪ S) = {[p]} ∪ S)
      by (now rewrite (assoc_L (∪)), (idemp_L (∪))).
    split.
    + destruct Hor as [-> | ->], Hor1 as [-> | ->]; rewrite ?Hidem; auto.
    + intros [-> | Hin']%elem_of_cons.
      * rewrite (Heq1 eq_refl) in Hor.
        destruct Hor as [-> | ->]; rewrite ?Hidem; reflexivity.
      * rewrite (Hin Hin').
        destruct Hor1 as [-> | ->]; rewrite ?Hidem; reflexivity.
Qed.

Lemma add_paper_all_frame p es : forall h h',
  Paper.add_paper_all p h es = Some h' ->
  exps h' = exps h /\ paps h' = paps h.
Proof.
  induction es as [|e es IH]; intros h h' Hall.
  - injection Hall as <-. auto.
  - cbn [Paper.add_paper_all] in Hall.
    destruct (Paper.add_paper p h e) as [h1|] eqn:E1; simpl in Hall;
      [| discriminate].
    apply add_paper_inv in E1 as (x & S & _ & _ & ->).
    apply IH in Hall as [-> ->]. auto.
Qed.

(** After the loop the paper is in the set of each experiment of the list. *)
Lemma add_paper_all_member p es : forall h h' e,
  Paper.add_paper_all p h es = Some h' ->
  e ∈ es ->
  exists S, papers_of h' e = Some S /\ p ∈ S.
Proof.
  induction es as [|e0 es IH]; intros h h' e Hall Hin; [inversion Hin |].
  cbn [Paper.add_paper_all] in Hall.
  destruct (Paper.add_paper p h e0) as [h1|] eqn:E1; simpl in Hall;
    [| discriminate].
  apply elem_of_cons in Hin as [-> | Hin]; [| now apply (IH h1)].
  pose proof E1 as (x & S & Ex & Es & _)%add_paper_inv.
  assert (HS : papers_of h e0 = Some S) by (unfold papers_of; now rewrite Ex).
  destruct (add_paper_papers_of _ _ _ _ _ _ E1 HS) as (S1 & HS1 & _ & Heq1).
  destruct (add_paper_all_papers_of _ _ _ _ _ _ Hall HS1) as (S' & HS' & Hor & _).
  exists S'. split; [exact HS' |].
  rewrite (Heq1 eq_refl) in Hor.
  destruct Hor as [-> | ->]; rewrite !elem_of_union, elem_of_singleton; auto.
Qed.

(** The loop runs to its end when every experiment and its set exist. *)
Lemma add_paper_all_total p es : forall h,
  all_allocated h es -> is_Some (Paper.add_paper_all p h es).
Proof.
  induction es as [|e es IH]; intros h Hes; [now eexists |].
  apply Forall_cons in Hes as [[S HS] Hes].
  cbn [Paper.add_paper_all].
  destruct (Paper.add_paper p h e) as [h1|] eqn:E1.
  - simpl. apply IH. eapply Forall_impl; [exact Hes |].
    intros e' [S' HS'].
    destruct (add_paper_papers_of _ _ _ _ _ _ E1 HS') as (S1 & HS1 & _).
    now exists S1.
  - exfalso. unfold papers_of in HS. unfold Paper.add_paper in E1.
    destruct (exps h !! e) as [x|]; simpl in *; [| discriminate].
    rewrite HS in E1. discriminate.
Qed.

Lemma langs_of_total es : forall h,
  all_allocated h es -> is_Some (Paper.langs_of h es).
Proof.
  induction es as [|e es IH]; intros h Hes; [now eexists |].
  apply Forall_cons in Hes as [[S HS] Hes].
  cbn [Paper.langs_of]. unfold papers_of in HS.
  destruct (exps h !! e) as [x|]; simpl in *; [| discriminate].
  destruct (IH h Hes) as [ls ->]. now eexists.
Qed.

(** The steps of the constructor. *)
Lemma paper_init_inv h name title url cite es langs p h' :
  Paper.__post_init__ h name title url cite es langs = Some (p, h') ->
  p = fresh (dom (paps h))
  /\ exists langs',
       Paper.add_paper_all p
         (mkHeap (sets h) (exps h)
            (<[p := Paper.mk name title url cite es langs']> (paps h))) es
       = Some h'.
Proof.
  unfold Paper.__post_init__. cbv zeta. intros Hh.
  destruct (match langs with Some (l :: ls) => Some (l :: ls) | _ => _ end)
    as [langs'|]; simpl in Hh; [| discriminate].
  destruct (Paper.add_paper_all _ _ es) as [h2|] eqn:E2; simpl in Hh;
    [| discriminate].
  injection Hh as <- <-. eauto.
Qed.

(** Construction succeeds on every list of existing experiments. *)
Lemma paper_init_total h name title url cite es langs :
  all_allocated h es ->
  is_Some (Paper.__post_init__ h name title url cite es langs).
Proof.
  intros Hes. unfold Paper.__post_init__. cbv zeta.
  destruct (langs_of_total es h Hes) as [ls Hls].
  assert (exists langs', match langs with
                         | Some (l :: ls) => Some (l :: ls)
                         | _ => remove_dups <$> Paper.langs_of h es
                         end = Some langs') as [langs' ->].
  { destruct langs as [[|l ls']|]; rewrite ?Hls; simpl; eauto. }
  simpl.
  edestruct (add_paper_all_total (fresh (dom (paps h))) es) as [h2 ->];
    [| now eexists].
  exact Hes.
Qed.

(** C6. After a Paper is constructed it is a member of the [papers] set of
    every Experiment of its list.  Two Papers constructed over the same
    Experiment are two distinct objects, whatever their fields, and the set
    of that Experiment then holds both besides what it held before: exactly
    the two of them, a set of size 2, when it was empty. *)
Theorem paper_registration :
  (forall h name title url cite es langs p h',
     Paper.__post_init__ h name title url cite es langs = Some (p, h') ->
     (p ∉ dom (paps h))
     /\ is_Some (paps h' !! p)
     /\ forall e, e ∈ es -> exists S, papers_of h' e = Some S /\ p ∈ S)
  /\ (forall h e (S0 : gset loc) n1 t1 u1 c1 es1 l1 p1 h1 n2 t2 u2 c2 es2 l2 p2 h2,
        papers_of h e = Some S0 ->
        e ∈ es1 -> e ∈ es2 ->
        Paper.__post_init__ h n1 t1 u1 c1 es1 l1 = Some (p1, h1) ->
        Paper.__post_init__ h1 n2 t2 u2 c2 es2 l2 = Some (p2, h2) ->
        p1 <> p2
        /\ papers_of h2 e = Some ({[p1; p2]} ∪ S0)
        /\ (S0 = ∅ ->
            papers_of h2 e = Some {[p1; p2]}
            /\ size ({[p1; p2]} : gset loc) = 2)).
Proof.
  split.
  - intros h name title url cite es langs p h' Hinit.
    apply paper_init_inv in Hinit as (-> & langs' & Hall).
    split; [apply is_fresh |]. split.
    + apply add_paper_all_frame in Hall as [_ ->]. cbn [paps].
      rewrite lookup_insert_eq. now eexists.
    + intros e Hin. eapply add_paper_all_member; eauto.
  - intros h e S0 n1 t1 u1 c1 es1 l1 p1 h1 n2 t2 u2 c2 es2 l2 p2 h2
      HS0 Hin1 Hin2 Hinit1 Hinit2.
    apply paper_init_inv in Hinit1 as (Hp1 & langs1 & Hall1).
    apply paper_init_inv in Hinit2 as (Hp2 & langs2 & Hall2).
    assert (Hne : p1 <> p2).
    { intros Heq. pose proof (is_fresh (dom (paps h1))) as Hfr.
      rewrite <- Hp2, <- Heq in Hfr. apply Hfr.
      apply add_paper_all_frame in Hall1 as [_ ->]. cbn [paps].
      rewrite dom_insert_L. apply elem_of_union_l. now apply elem_of_singleton. }
    destruct (add_paper_all_papers_of _ _ _ _ e S0 Hall1 HS0)
      as (S1 & HS1 & _ & HS1eq).
    rewrite (HS1eq Hin1) in HS1.
    destruct (add_paper_all_papers_of _ _ _ _ e _ Hall2 HS1)
      as (S2 & HS2 & _ & HS2eq).
    rewrite (HS2eq Hin2) in HS2.
    assert (Heq : {[p2]} ∪ ({[p1]} ∪ S0) = {[p1; p2]} ∪ S0)
      by (now rewrite (assoc_L (∪)), (comm_L (∪) {[p2]} {[p1]})).
    rewrite Heq in HS2.
    split; [exact Hne |]. split; [exact HS2 |].
    intros ->. split.
    + rewrite HS2. f_equal. apply (right_id_L ∅ (∪)).
    + rewrite size_union by (now apply disjoint_singleton_l, not_elem_of_singleton).
      now rewrite !size_singleton.
Qed.

End PaperLinks.

(** * The properties on sample values *)

Example sample_did_constructed :
  @DatasetId.__post_init__ fake_tags "g" "news" "1" [PStr "fr"; PStr "en"]
  = OK sample_did.
Proof. reflexivity. Qed.

Example sample_entry_constructed :
  @Entry.__init__ fake_tags fake_exts sample_did "http://host/path/news.tsv"
    None None None None None None
  = OK sample_entry.
Proof. reflexivity. Qed.

Example sample_heap_constructed :
  @Experiment.__post_init__ fake_tags (@Paper.t fake_tags) empty_heap
    [PStr "en"; PStr "fr"] [] [] None
  = OK (1%positive, sample_heap).
Proof. vm_compute. reflexivity. Qed.

(** Reserved-character rule of the constructor: [a/b] is refused as a group,
    [a_b] is accepted. *)
Example reserved_character_rule :
  @DatasetId.__post_init__ fake_tags "a/b" "news" "1" [PStr "en"; PStr "fr"]
  = Error (InvalidIdentifier "Character '/' is not permitted in name a/b")
  /\ @DatasetId.__post_init__ fake_tags "a_b" "news" "1" [PStr "en"; PStr "fr"]
     = OK (@DatasetId.mk fake_tags "a_b" "news" "1" [Eng; Fra]).
Proof. split; reflexivity. Qed.

(** The archive exts are compared as they are written: [ZIP] is a plain
    file. *)
Example upper_case_zip_is_plain :
  exists e, @Entry.__init__ fake_tags fake_exts sample_did "http://host/a.ZIP"
              None (Some "ZIP") None None None None = OK e
            /\ Entry.is_archive e = false.
Proof. eexists. split; reflexivity. Qed.

(** The round trip on an identifier built from the raw tags [en] and [fr],
    whose canonical string shows [eng] and [fra]. *)
Lemma parse_format_roundtrip_witness :
  @DatasetId.__post_init__ fake_tags "g" "news" "1" [PStr "en"; PStr "fr"]
  = OK (@DatasetId.mk fake_tags "g" "news" "1" [Eng; Fra])
  /\ @DatasetId.format fake_tags (@DatasetId.mk fake_tags "g" "news" "1" [Eng; Fra])
       DID_DELIM = "g-news-1-eng-fra"
  /\ @DatasetId.parse fake_tags "g-news-1-eng-fra" DID_DELIM
     = OK (@DatasetId.mk fake_tags "g" "news" "1" [Eng; Fra]).
Proof.
  split; [reflexivity |]. split; [reflexivity |].
  apply (@parse_format_roundtrip fake_tags "g" "news" "1" (PStr "en") (PStr "fr")
           (@DatasetId.mk fake_tags "g" "news" "1" [Eng; Fra])).
  - reflexivity.
  - reflexivity.
  - reflexivity.
  - repeat constructor.
Defined.

(** C1, as stated, fails: a group that begins with a tab holds no reserved
    character, and [parse] strips the tab from the canonical string. *)
Lemma roundtrip_fails_on_leading_tab :
  exists d : @DatasetId.t fake_tags,
    @DatasetId.__post_init__ fake_tags (tab +:+ "g") "news" "1"
      [PStr "en"; PStr "fr"] = OK d
    /\ DatasetId.first_reserved DatasetId.RESERVED (tab +:+ "g") = None
    /\ DatasetId.parse (DatasetId.format d DID_DELIM) DID_DELIM
       = OK (@DatasetId.mk fake_tags "g" "news" "1" [Eng; Fra])
    /\ DatasetId.parse (DatasetId.format d DID_DELIM) DID_DELIM <> OK d.
Proof.
  eexists. split; [reflexivity |]. split; [reflexivity |].
  split; [reflexivity |]. vm_compute. discriminate.
Qed.

(** The entry of languages (fra, eng) asked about (eng, fra), as tags and as
    strings. *)
Lemma is_swap_pair_false_witness :
  DatasetId.langs (Entry.did sample_entry) = [Fra; Eng]
  /\ @Entry.is_swap fake_tags sample_entry [@PTag fake_tags Eng; @PTag fake_tags Fra] = false
  /\ @Entry.is_swap fake_tags sample_entry [PStr "eng"; PStr "fra"] = false.
Proof.
  split; [reflexivity |].
  split; apply (@is_swap_pair_false fake_tags sample_entry Fra Eng);
    solve [reflexivity | discriminate].
Defined.

(** The message for [g-n-v-en]. *)
Lemma parse_malformed_iff_witness :
  occurs_in "<group>-<name>-<version>-<l1>-<l2>"
    (DatasetId.parse_msg "g-n-v-en" DID_DELIM)
  /\ occurs_in "mtdata list" (DatasetId.parse_msg "g-n-v-en" DID_DELIM).
Proof.
  apply (proj1 (proj2 (@parse_malformed_iff fake_tags)) "g-n-v-en").
  reflexivity.
Defined.

(** A [zip] entry with an empty [in_paths], then with [a.txt] and [txt]. *)
Lemma archive_entry_shape_witness :
  (exists m, @Entry.__init__ fake_tags fake_exts sample_did "http://host/a.zip"
               None (Some "zip") (Some []) None None None
             = Error (ArchiveSpecError m))
  /\ (exists e, @Entry.__init__ fake_tags fake_exts sample_did "http://host/a.zip"
                 None (Some "zip") (Some ["a.txt"]) (Some "txt") None None
               = OK e
               /\ Entry.is_archive e = true
               /\ Entry.in_paths e = Some ["a.txt"]
               /\ Entry.in_ext e = Some "txt").
Proof.
  split.
  - apply (proj1 (@archive_entry_shape fake_tags fake_exts sample_did
                    "http://host/a.zip" None (Some "zip") (Some []) None None None
                    eq_refl)).
    right. left. reflexivity.
  - apply (proj2 (@archive_entry_shape fake_tags fake_exts sample_did
                    "http://host/a.zip" None (Some "zip") (Some ["a.txt"])
                    (Some "txt") None None eq_refl) "a.txt" [] "txt");
      solve [reflexivity | discriminate].
Defined.

(** C4, as stated, fails: an [in_ext] that is supplied as the empty string is
    refused like a missing one. *)
Lemma archive_empty_in_ext_rejected :
  Entry.str_in "zip" Entry.ARCHIVE_EXTS = true
  /\ @Entry.__init__ fake_tags fake_exts sample_did "http://host/a.zip"
       None (Some "zip") (Some ["a.txt"]) (Some "") None None
     = Error (ArchiveSpecError "in_ext is required for archive files").
Proof. split; reflexivity. Qed.

(** A [tsv] entry with [in_paths], then without; an [opus_xces] entry with
    [in_paths]. *)
Lemma plain_entry_shape_witness :
  (exists m, @Entry.__init__ fake_tags fake_exts sample_did "http://host/a.tsv"
               None (Some "tsv") (Some ["x"]) None None None
             = Error (InvalidEntryShape m))
  /\ (exists e, @Entry.__init__ fake_tags fake_exts sample_did "http://host/a.tsv"
                 None (Some "tsv") (Some []) None None None
               = OK e
               /\ Entry.is_archive e = false
               /\ Entry.in_paths e = Some [])
  /\ (exists e, @Entry.__init__ fake_tags fake_exts sample_did "http://host/a.xml"
                 None (Some "xml") (Some ["x"; "y"]) (Some "opus_xces") None None
               = OK e
               /\ Entry.is_archive e = false
               /\ Entry.in_paths e = Some ["x"; "y"]).
Proof.
  split; [| split].
  - apply (proj1 (@plain_entry_shape fake_tags fake_exts sample_did
                    "http://host/a.tsv" None (Some "tsv") (Some ["x"]) None None None
                    eq_refl eq_refl) "x" []);
      solve [reflexivity | discriminate].
  - apply (proj2 (@plain_entry_shape fake_tags fake_exts sample_did
                    "http://host/a.tsv" None (Some "tsv") (Some []) None None None
                    eq_refl eq_refl)).
    right. right. reflexivity.
  - apply (proj2 (@plain_entry_shape fake_tags fake_exts sample_did
                    "http://host/a.xml" None (Some "xml") (Some ["x"; "y"])
                    (Some "opus_xces") None None eq_refl eq_refl)).
    left. reflexivity.
Defined.

(** C5, as stated, fails: an ext that begins with a dot is not an archive
    ext, and the entry is refused for its ext before [in_paths] is looked
    at. *)
Lemma dotted_ext_rejected_first :
  Entry.str_in ".txt" Entry.ARCHIVE_EXTS = false
  /\ @Entry.__init__ fake_tags fake_exts sample_did "http://host/a.txt"
       None (Some ".txt") (Some ["x"]) None None None
     = Error (DotPrefixedExt "ext .txt should not start with a dot (.)")
  /\ (forall m,
        @Entry.__init__ fake_tags fake_exts sample_did "http://host/a.txt"
          None (Some ".txt") (Some ["x"]) None None None
        <> Error (InvalidEntryShape m)).
Proof. split; [reflexivity |]. split; [reflexivity |]. intros m. discriminate. Qed.

(** Two papers with the same fields over the one experiment of
    [sample_heap]. *)
Lemma paper_registration_witness :
  exists p1 h1 p2 h2,
    @Paper.__post_init__ fake_tags sample_heap "key" "title" "url" "cite"
      [1%positive] None = Some (p1, h1)
    /\ @Paper.__post_init__ fake_tags h1 "key" "title" "url" "cite"
         [1%positive] None = Some (p2, h2)
    /\ paps h2 !! p1 = paps h2 !! p2
    /\ p1 <> p2
    /\ papers_of h2 1%positive = Some {[p1; p2]}
    /\ size ({[p1; p2]} : gset loc) = 2.
Proof.
  do 4 eexists.
  split; [vm_compute; reflexivity |].
  split; [vm_compute; reflexivity |].
  split; [vm_compute; reflexivity |].
  assert (Hin : 1%positive ∈ [1%positive]) by apply list_elem_of_here.
  destruct (proj2 (@paper_registration fake_tags) sample_heap 1%positive ∅
              "key" "title" "url" "cite" [1%positive] None _ _
              "key" "title" "url" "cite" [1%positive] None _ _
              eq_refl Hin Hin eq_refl eq_refl) as (Hne & _ & Hempty).
  destruct (Hempty eq_refl) as [Hres Hsize]. auto.
Defined.

(** A [tar.gz] entry. *)
Lemma is_archive_iff_witness :
  exists e, @Entry.__init__ fake_tags fake_exts sample_did "http://host/a.tar.gz"
              None (Some "tar.gz") (Some ["a.txt"]) (Some "txt") None None = OK e
            /\ Entry.ext e = "tar.gz"
            /\ (Entry.is_archive e = true
                <-> Entry.ext e = "zip" \/ Entry.ext e = "tar"
                    \/ Entry.ext e = "tar.gz" \/ Entry.ext e = "tgz").
Proof.
  eexists. split; [reflexivity |].
  pose proof (@is_archive_iff fake_tags fake_exts sample_did "http://host/a.tar.gz"
                None (Some "tar.gz") (Some ["a.txt"]) (Some "txt") None None _
                eq_refl) as (Hext & Hiff & _).
  split; [exact Hext | exact Hiff].
Defined.

(** [News] and [news]. *)
Lemma name_case_rule_witness :
  (exists m, @DatasetId.__post_init__ fake_tags "g" "News" "1"
               [PStr "en"; PStr "fr"] = Error (InvalidIdentifier m))
  /\ @DatasetId.__post_init__ fake_tags "g" "news" "1" [PStr "en"; PStr "fr"]
     = OK (@DatasetId.mk fake_tags "g" "news" "1" [Eng; Fra]).
Proof.
  split.
  - apply (proj1 (@name_case_rule fake_tags)).
  - apply (proj1 (proj2 (@name_case_rule fake_tags)));
      solve [reflexivity | discriminate].
Defined.

(** The all-digit name [2021]. *)
Lemma caseless_name_rejected_witness :
  Py.existsb_str Py.iscased "2021" = false
  /\ Py.forallb_str (fun c => negb (Py.isupper_ch c)) "2021" = true
  /\ DatasetId.first_reserved DatasetId.RESERVED "2021" = None
  /\ Py.islower "2021" = false
  /\ exists m, @DatasetId.__post_init__ fake_tags "g" "2021" "1"
                 [PStr "en"; PStr "fr"] = Error (InvalidIdentifier m).
Proof.
  split; [reflexivity |]. split; [reflexivity |]. split; [reflexivity |].
  apply (@caseless_name_rejected fake_tags "g" "2021" "1" [PStr "en"; PStr "fr"]).
  reflexivity.
Defined.

(** * Further properties of the module *)

(** ** DatasetId: what the constructor accepts *)

Lemma first_reserved_none (chs s : string) :
  DatasetId.first_reserved chs s = None
  <-> Py.existsb_str (fun ch => Py.contains_char ch s) chs = false.
Proof.
  induction chs as [|ch chs IH]; cbn [DatasetId.first_reserved Py.existsb_str];
    [tauto |].
  destruct (Py.contains_char ch s); cbn [orb]; [split; discriminate | exact IH].
Qed.

Lemma reserved_free_iff (s : string) :
  DatasetId.first_reserved DatasetId.RESERVED s = None <-> has_reserved s = false.
Proof. apply first_reserved_none. Qed.

Section DatasetIdAccepts.
Context `{TagService}.

Lemma valid_fields_true (group name version : string) :
  valid_fields group name version = true
  <-> group <> "" /\ name <> "" /\ version <> "" /\ Py.islower name = true
      /\ Forall (fun s => DatasetId.first_reserved DatasetId.RESERVED s = None)
           [group; version; name].
Proof.
  unfold valid_fields. rewrite !andb_true_iff, !negb_true_iff.
  rewrite !Forall_cons, !reserved_free_iff.
  assert (Ht : forall s, Py.truthy s = true <-> s <> "").
  { intros [|c s]; cbn [Py.truthy]; split; congruence. }
  rewrite !Ht. split.
  - intros ((((((Hg & Hn) & Hv) & Hl) & Rg) & Rv) & Rn). repeat split; auto.
  - intros (Hg & Hn & Hv & Hl & Rg & Rv & Rn & _). repeat split; auto.
Qed.

Lemma post_init_ok_valid (group name version : string) (langs : list pyval)
    (d : DatasetId.t) :
  DatasetId.__post_init__ group name version langs = OK d ->
  valid_fields group name version = true
  /\ exists tgs, DatasetId.normalize_all langs = OK tgs
                 /\ d = DatasetId.mk group name version tgs.
Proof.
  intros Hd. apply post_init_ok_inv in Hd.
  destruct Hd as (Hg & Hn & Hv & Hl & Hr & tgs & Ht & ->).
  split; [apply valid_fields_true; auto | eauto].
Qed.

Lemma post_init_valid_ok (group name version : string) (langs : list pyval)
    (tgs : list BCP47Tag) :
  valid_fields group name version = true ->
  DatasetId.normalize_all langs = OK tgs ->
  DatasetId.__post_init__ group name version langs
  = OK (DatasetId.mk group name version tgs).
Proof.
  intros (Hg & Hn & Hv & Hl & Hr)%valid_fields_true Ht. now apply post_init_ok.
Qed.


(** X2. When one of the three strings is empty or holds a reserved
    character, or the name is not lower case, the constructor fails with
    InvalidIdentifier, whatever the languages are: the strings are checked
    before any language is normalised. *)
Theorem invalid_fields_rejected (group name version : string)
    (langs : list pyval) :
  valid_fields group name version = false ->
  exists m, DatasetId.__post_init__ group name version langs
            = Error (InvalidIdentifier m).
Proof.
  intros Hv.
  destruct (DatasetId.__post_init__ group name version langs) as [d|e] eqn:E.
  - apply post_init_ok_valid in E as [Hok _]. congruence.
  - destruct (post_init_error_kind _ _ _ _ _ E) as [[m ->]|[raw ->]]; [eauto |].
    exfalso. revert E. unfold DatasetId.__post_init__.
    unfold valid_fields in Hv.
    destruct (Py.truthy group); cbn [assert bind andb] in *; [| discriminate].
    destruct (Py.truthy name); cbn [assert bind andb] in *; [| discriminate].
    destruct (Py.truthy version); cbn [assert bind andb] in *; [| discriminate].
    destruct (Py.islower name); cbn [assert bind andb] in *; [| discriminate].
    destruct (DatasetId.check_reserved [group; version; name]) as [[]|e'] eqn:Ec;
      cbn [bind].
    + apply check_reserved_inv in Ec.
      repeat (apply Forall_cons in Ec as [?%reserved_free_iff Ec]).
      repeat match goal with R : has_reserved _ = false |- _ =>
               rewrite R in Hv; clear R end.
      discriminate.
    + intros [= ->]. clear -Ec. revert Ec. generalize [group; version; name].
      intros fields. induction fields as [|s rest IH];
        cbn [DatasetId.check_reserved]; [discriminate |].
      destruct (DatasetId.first_reserved DatasetId.RESERVED s);
        [discriminate | exact IH].
Qed.

Lemma normalize_all_tags (tgs : list BCP47Tag) :
  DatasetId.normalize_all (map PTag tgs) = OK tgs.
Proof.
  induction tgs as [|tg tgs IH]; [reflexivity |].
  cbn [map DatasetId.normalize_all DatasetId.normalize bind].
  now rewrite IH.
Qed.

Lemma normalize_all_app_error (pre post : list pyval) (tgs : list BCP47Tag)
    (raw : string) :
  DatasetId.normalize_all pre = OK tgs ->
  bcp47 raw = None ->
  DatasetId.normalize_all (pre ++ PStr raw :: post) = Error (InvalidTag raw).
Proof.
  revert tgs. induction pre as [|v pre IH]; intros tgs Hpre Hraw.
  - cbn [app DatasetId.normalize_all DatasetId.normalize]. now rewrite Hraw.
  - cbn [app DatasetId.normalize_all] in *.
    destruct (DatasetId.normalize v) as [tg|e]; cbn [bind] in *; [| discriminate].
    destruct (DatasetId.normalize_all pre) as [tgs'|e] eqn:E; cbn [bind] in *;
      [| discriminate].
    now rewrite (IH tgs' eq_refl Hraw).
Qed.

(** X3. When the three strings pass the checks, the first language that the
    tag service refuses makes the constructor fail with the error of the
    service for that raw tag; the languages after it are not looked at. *)
Theorem first_refused_language_reported (group name version : string)
    (pre post : list pyval) (tgs : list BCP47Tag) (raw : string) :
  valid_fields group name version = true ->
  DatasetId.normalize_all pre = OK tgs ->
  bcp47 raw = None ->
  DatasetId.__post_init__ group name version (pre ++ PStr raw :: post)
  = Error (InvalidTag raw).
Proof.
  intros Hv Hpre Hraw. apply valid_fields_true in Hv as (Hg & Hn & Hv & Hl & Hr).
  unfold DatasetId.__post_init__.
  destruct group as [|g0 g]; [congruence |].
  destruct name as [|n0 n]; [congruence |].
  destruct version as [|v0 v]; [congruence |].
  cbn [Py.truthy assert bind]. rewrite Hl. cbn [assert bind].
  rewrite (check_reserved_ok _ Hr). cbn [bind].
  now rewrite (normalize_all_app_error _ _ _ _ Hpre Hraw).
Qed.

(** X4. A DatasetId that was constructed is constructed again, equal, from
    its own fields: tags that are tags already are kept as they are, without
    a call to the tag service. *)
Theorem rebuilt_from_fields (group name version : string) (langs : list pyval)
    (d : DatasetId.t) :
  DatasetId.__post_init__ group name version langs = OK d ->
  DatasetId.__post_init__ (DatasetId.group d) (DatasetId.name d)
    (DatasetId.version d) (map PTag (DatasetId.langs d)) = OK d.
Proof.
  intros Hd. apply post_init_ok_valid in Hd as (Hv & tgs & Ht & ->).
  cbn [DatasetId.group DatasetId.name DatasetId.version DatasetId.langs].
  apply post_init_valid_ok; [exact Hv | apply normalize_all_tags].
Qed.

End DatasetIdAccepts.

(** ** Splitting on a one-character delimiter *)

Lemma split_scan_char (c : ascii) (cur : string) (x : ascii) (s : string) :
  Py.split_scan (String c "") 0 cur (String x s)
  = if Ascii.eqb c x then cur :: Py.split_scan (String c "") 0 "" s
    else Py.split_scan (String c "") 0 (cur +:+ String x "") s.
Proof.
  cbn [Py.split_scan Py.startswith]. rewrite andb_true_r. reflexivity.
Qed.

Lemma split_scan_char_length (c : ascii) (s cur : string) :
  length (Py.split_scan (String c "") 0 cur s) = S (count_char c s).
Proof.
  revert cur. induction s as [|x s IH]; intros cur; [reflexivity |].
  rewrite split_scan_char. cbn [count_char].
  destruct (Ascii.eqb c x); cbn [length]; now rewrite IH.
Qed.

Lemma join_cons (sep p : string) (l : list string) :
  l <> [] -> Py.join sep (p :: l) = p +:+ sep +:+ Py.join sep l.
Proof. destruct l; [congruence | reflexivity]. Qed.

(** Joining the segments with the delimiter gives the string back. *)
Lemma join_split_scan_char (c : ascii) (s cur : string) :
  Py.join (String c "") (Py.split_scan (String c "") 0 cur s) = cur +:+ s.
Proof.
  revert cur. induction s as [|x s IH]; intros cur.
  - now rewrite append_nil_r.
  - rewrite split_scan_char. destruct (Ascii.eqb c x) eqn:E.
    + apply Ascii.eqb_eq in E as <-. rewrite join_cons.
      * now rewrite IH, append_nil_l.
      * intros Hnil. pose proof (split_scan_char_length c s "") as Hl.
        rewrite Hnil in Hl. discriminate.
    + rewrite IH. now rewrite append_assoc.
Qed.

Lemma count_char_append (c : ascii) (a b : string) :
  count_char c (a +:+ b) = count_char c a + count_char c b.
Proof.
  induction a as [|x a IH]; [reflexivity |].
  rewrite append_cons. cbn [count_char]. rewrite IH. lia.
Qed.

Lemma count_char_zero (c : ascii) (s : string) :
  Py.contains_char c s = false <-> count_char c s = 0.
Proof.
  unfold Py.contains_char.
  induction s as [|x s IH]; cbn [Py.existsb_str count_char]; [tauto |].
  destruct (Ascii.eqb c x); cbn [orb]; [split; [discriminate | lia] |].
  exact IH.
Qed.

Lemma count_char_lstrip (c : ascii) (s : string) :
  Py.isspace c = false -> count_char c (Py.lstrip s) = count_char c s.
Proof.
  intros Hc. induction s as [|x s IH]; [reflexivity |].
  cbn [Py.lstrip]. destruct (Py.isspace x) eqn:Ex; [| reflexivity].
  rewrite IH. cbn [count_char].
  destruct (Ascii.eqb c x) eqn:E; [| reflexivity].
  apply Ascii.eqb_eq in E. congruence.
Qed.

Lemma count_char_rstrip (c : ascii) (s : string) :
  Py.isspace c = false -> count_char c (Py.rstrip s) = count_char c s.
Proof.
  intros Hc. induction s as [|x s IH]; [reflexivity |].
  cbn [Py.rstrip count_char]. rewrite <- IH.
  destruct (Py.rstrip s) as [|y r]; [| reflexivity].
  destruct (Py.isspace x) eqn:Ex; cbn [count_char]; [| lia].
  destruct (Ascii.eqb c x) eqn:E; [| reflexivity].
  apply Ascii.eqb_eq in E. congruence.
Qed.

Lemma count_char_strip (c : ascii) (s : string) :
  Py.isspace c = false -> count_char c (Py.strip s) = count_char c s.
Proof.
  intros Hc. unfold Py.strip.
  now rewrite count_char_rstrip, count_char_lstrip.
Qed.

(** ** Stripping a padded string *)

Lemma lstrip_padded (pre x : string) :
  Py.forallb_str Py.isspace pre = true -> Py.lstrip (pre +:+ x) = Py.lstrip x.
Proof.
  induction pre as [|c pre IH]; [reflexivity |].
  cbn [Py.forallb_str]. intros [Hc Hp]%andb_true_iff.
  rewrite append_cons. cbn [Py.lstrip]. rewrite Hc. auto.
Qed.

Lemma rstrip_padded (x post : string) :
  Py.forallb_str Py.isspace post = true -> Py.rstrip (x +:+ post) = Py.rstrip x.
Proof.
  intros Hp. induction x as [|c x IH].
  - rewrite append_nil_l. now apply rstrip_empty.
  - rewrite append_cons. cbn [Py.rstrip]. now rewrite IH.
Qed.

Lemma lstrip_append (x y : string) :
  Py.lstrip x <> "" -> Py.lstrip (x +:+ y) = Py.lstrip x +:+ y.
Proof.
  induction x as [|c x IH]; [intros Hx; now destruct Hx |].
  rewrite append_cons. cbn [Py.lstrip].
  destruct (Py.isspace c); [exact IH | reflexivity].
Qed.

Lemma strip_padded (pre s post : string) :
  Py.forallb_str Py.isspace pre = true ->
  Py.forallb_str Py.isspace post = true ->
  Py.strip (pre +:+ s +:+ post) = Py.strip s.
Proof.
  intros Hpre Hpost. unfold Py.strip. rewrite lstrip_padded by exact Hpre.
  destruct (Py.lstrip s) eqn:E.
  - apply lstrip_all_space in E.
    assert (Hall : Py.forallb_str Py.isspace (s +:+ post) = true).
    { clear -E Hpost. induction s as [|c s IH]; [exact Hpost |].
      cbn [Py.forallb_str] in E. apply andb_true_iff in E as [Hc Hs].
      rewrite append_cons. cbn [Py.forallb_str]. now rewrite Hc, IH. }
    apply lstrip_all_space in Hall. now rewrite Hall.
  - rewrite lstrip_append by (rewrite E; discriminate).
    rewrite E. now apply rstrip_padded.
Qed.

(** ** DatasetId: more on format and parse *)

Section ParseMore.
Context `{TagService}.

(** [parse] with a one-character delimiter, by the number of segments. *)
Lemma parse_char (c : ascii) (s : string) :
  DatasetId.parse s (String c "")
  = match Py.split_scan (String c "") 0 "" (Py.strip s) with
    | [group; name; version; lang1; lang2] =>
        DatasetId.__post_init__ group name version [PStr lang1; PStr lang2]
    | _ => Error (MalformedIdentifierString (DatasetId.parse_msg s (String c "")))
    end.
Proof. reflexivity. Qed.

Lemma parse_char_wrong_count (c : ascii) (s : string) :
  S (count_char c (Py.strip s)) <> 5 ->
  DatasetId.parse s (String c "")
  = Error (MalformedIdentifierString (DatasetId.parse_msg s (String c ""))).
Proof.
  intros Hn. rewrite parse_char.
  pose proof (split_scan_char_length c (Py.strip s) "") as Hl.
  destruct (Py.split_scan (String c "") 0 "" (Py.strip s))
    as [|a [|b [|x [|y [|z [|w rest]]]]]]; cbn [length] in Hl;
    try reflexivity.
  congruence.
Qed.

(** X5. An identifier that [parse] returns has two languages; its group, name
    and version are the first three segments of the stripped input, its tags
    are the tag service's answers on the last two; and when these two
    segments are the strings of the tags, [format] gives the stripped input
    back. *)
Theorem parsed_fields (s : string) (d : DatasetId.t) :
  DatasetId.parse s DID_DELIM = OK d ->
  exists l1 l2 t1 t2,
    Py.strip s
    = Py.join DID_DELIM
        [DatasetId.group d; DatasetId.name d; DatasetId.version d; l1; l2]
    /\ bcp47 l1 = Some t1 /\ bcp47 l2 = Some t2
    /\ DatasetId.langs d = [t1; t2]
    /\ valid_fields (DatasetId.group d) (DatasetId.name d) (DatasetId.version d)
       = true
    /\ (tag_str t1 = l1 -> tag_str t2 = l2 ->
        DatasetId.format d DID_DELIM = Py.strip s).
Proof.
  unfold DID_DELIM. rewrite parse_char.
  pose proof (join_split_scan_char "-" (Py.strip s) "") as Hj.
  destruct (Py.split_scan "-" 0 "" (Py.strip s))
    as [|g [|n [|v [|l1 [|l2 [|w rest]]]]]]; try discriminate.
  intros Hd. apply post_init_ok_valid in Hd as (Hv & tgs & Ht & ->).
  cbn [DatasetId.normalize_all DatasetId.normalize] in Ht.
  destruct (bcp47 l1) as [t1|] eqn:E1; cbn [bind] in Ht; [| discriminate].
  destruct (bcp47 l2) as [t2|] eqn:E2; cbn [bind] in Ht; [| discriminate].
  injection Ht as <-. exists l1, l2, t1, t2.
  cbn [DatasetId.group DatasetId.name DatasetId.version DatasetId.langs].
  rewrite append_nil_l in Hj.
  split; [now rewrite Hj |]. repeat split; auto.
  intros <- <-. rewrite <- Hj. reflexivity.
Qed.

Lemma parse_same_strip (s1 s2 delim : string) :
  Py.strip s1 = Py.strip s2 ->
  (forall d, DatasetId.parse s1 delim = OK d <-> DatasetId.parse s2 delim = OK d)
  /\ ((exists m, DatasetId.parse s1 delim = Error (MalformedIdentifierString m))
      <-> (exists m, DatasetId.parse s2 delim
                     = Error (MalformedIdentifierString m))).
Proof.
  intros Hs. unfold DatasetId.parse. rewrite Hs.
  destruct (Py.split delim (Py.strip s2)) as [parts|].
  - destruct parts as [|g [|n [|v [|l1 [|l2 [|w rest]]]]]];
      try (split; [intros d; split; discriminate | split; eauto]).
    split; [tauto | tauto].
  - split; [intros d; split; discriminate |].
    split; intros [m Hm]; discriminate.
Qed.

(** X6. Whitespace around the input does not change what [parse] answers: the
    padded input gives the same identifier, and is refused for its number of
    segments exactly when the bare input is. *)
Theorem parse_ignores_outer_whitespace (pre s post delim : string) :
  Py.forallb_str Py.isspace pre = true ->
  Py.forallb_str Py.isspace post = true ->
  (forall d, DatasetId.parse (pre +:+ s +:+ post) delim = OK d
             <-> DatasetId.parse s delim = OK d)
  /\ ((exists m, DatasetId.parse (pre +:+ s +:+ post) delim
                 = Error (MalformedIdentifierString m))
      <-> (exists m, DatasetId.parse s delim
                     = Error (MalformedIdentifierString m))).
Proof.
  intros Hpre Hpost. apply parse_same_strip. now apply strip_padded.
Qed.

Lemma count_char_join_other (c sep : ascii) (strs : list string) :
  c <> sep ->
  Forall (fun s => count_char c s = 0) strs ->
  count_char c (Py.join (String sep "") strs) = 0.
Proof.
  intros Hne. induction 1 as [|s rest Hs Hrest IH]; [reflexivity |].
  destruct rest as [|s' rest]; [exact Hs |].
  rewrite join_cons by discriminate.
  rewrite !count_char_append, Hs, IH. cbn [count_char].
  destruct (Ascii.eqb c sep) eqn:E; [| reflexivity].
  apply Ascii.eqb_eq in E. congruence.
Qed.

Lemma count_char_join_same (c : ascii) (strs : list string) :
  Forall (fun s => count_char c s = 0) strs ->
  count_char c (Py.join (String c "") strs) = length strs - 1.
Proof.
  induction 1 as [|s rest Hs Hrest IH]; [reflexivity |].
  destruct rest as [|s' rest]; [exact Hs |].
  rewrite join_cons by discriminate.
  rewrite !count_char_append, Hs, IH. cbn [count_char length].
  rewrite Ascii.eqb_refl. lia.
Qed.

(** The number of delimiters in the canonical string. *)
Lemma count_char_format (c : ascii) (d : DatasetId.t) :
  count_char c (DatasetId.format d (String c ""))
  = 3 + count_char c (DatasetId.group d) + count_char c (DatasetId.name d)
    + count_char c (DatasetId.version d) + count_char c (DatasetId.lang_str d).
Proof.
  unfold DatasetId.format. cbn [Py.join].
  rewrite !count_char_append. cbn [count_char]. rewrite Ascii.eqb_refl. lia.
Qed.

(** X7. The canonical string of an identifier that has one language, or
    three or more, or none, is refused by [parse]: with no delimiter inside
    the fields and the strings of the tags, it has a number of segments other
    than 5. *)
Theorem format_needs_two_languages (d : DatasetId.t) :
  count_char "-" (DatasetId.group d) = 0 ->
  count_char "-" (DatasetId.name d) = 0 ->
  count_char "-" (DatasetId.version d) = 0 ->
  Forall (fun tg => count_char "-" (tag_str tg) = 0) (DatasetId.langs d) ->
  length (DatasetId.langs d) <> 2 ->
  DatasetId.parse (DatasetId.format d DID_DELIM) DID_DELIM
  = Error (MalformedIdentifierString
             (DatasetId.parse_msg (DatasetId.format d DID_DELIM) DID_DELIM)).
Proof.
  intros Hg Hn Hv Ht Hlen. unfold DID_DELIM. apply parse_char_wrong_count.
  rewrite count_char_strip by reflexivity.
  rewrite count_char_format, Hg, Hn, Hv.
  unfold DatasetId.lang_str, DID_DELIM.
  rewrite count_char_join_same by (now apply Forall_map).
  rewrite length_map. lia.
Qed.

(** X8. With a one-character delimiter other than [-], [format] and [parse]
    do not agree: the languages are still joined by [-], so the string has 4
    segments and [parse] with the same delimiter refuses it, whatever the
    number of languages. *)
Theorem format_other_delimiter_unparsed (d : DatasetId.t) (c : ascii) :
  c <> "-"%char -> Py.isspace c = false ->
  count_char c (DatasetId.group d) = 0 ->
  count_char c (DatasetId.name d) = 0 ->
  count_char c (DatasetId.version d) = 0 ->
  Forall (fun tg => count_char c (tag_str tg) = 0) (DatasetId.langs d) ->
  DatasetId.parse (DatasetId.format d (String c "")) (String c "")
  = Error (MalformedIdentifierString
             (DatasetId.parse_msg (DatasetId.format d (String c ""))
                (String c ""))).
Proof.
  intros Hne Hsp Hg Hn Hv Ht. apply parse_char_wrong_count.
  rewrite count_char_strip by exact Hsp.
  rewrite count_char_format, Hg, Hn, Hv.
  unfold DatasetId.lang_str, DID_DELIM.
  rewrite count_char_join_other; [lia | exact Hne | now apply Forall_map].
Qed.

End ParseMore.

(** ** Entry: what the constructor keeps *)

Lemma or_else_nonempty (o : option string) (default : string) :
  default <> "" -> Entry.or_else o default <> "".
Proof.
  intros Hd. destruct o as [[|c s]|]; cbn [Entry.or_else Py.truthy];
    auto; discriminate.
Qed.

Lemma last_cons {A : Type} (x d : A) (l : list A) :
  l <> [] -> List.last (x :: l) d = List.last l d.
Proof. destruct l; [congruence | reflexivity]. Qed.

Lemma split_scan_char_plain (c : ascii) (b cur : string) :
  count_char c b = 0 -> Py.split_scan (String c "") 0 cur b = [cur +:+ b].
Proof.
  revert cur. induction b as [|x b IH]; intros cur Hb.
  - now rewrite append_nil_r.
  - cbn [count_char] in Hb. rewrite split_scan_char.
    destruct (Ascii.eqb c x); [discriminate |].
    rewrite IH by exact Hb. now rewrite append_assoc.
Qed.

(** The last segment is what follows the last delimiter. *)
Lemma split_scan_char_last (c : ascii) (a b cur : string) :
  count_char c b = 0 ->
  List.last (Py.split_scan (String c "") 0 cur (a +:+ String c b)) "" = b.
Proof.
  intros Hb. revert cur. induction a as [|x a IH]; intros cur.
  - rewrite append_nil_l, split_scan_char, Ascii.eqb_refl.
    now rewrite split_scan_char_plain, append_nil_l.
  - rewrite append_cons, split_scan_char.
    destruct (Ascii.eqb c x); [| apply IH].
    rewrite last_cons; [apply IH |].
    intros Hnil.
    pose proof (split_scan_char_length c (a +:+ String c b) "") as Hl.
    rewrite Hnil in Hl. discriminate.
Qed.

Lemma orig_name_tail (a b : string) :
  count_char "/" b = 0 -> Entry.orig_name (a +:+ "/" +:+ b) = b.
Proof. intros Hb. unfold Entry.orig_name. now apply split_scan_char_last. Qed.

Lemma orig_name_plain (b : string) :
  count_char "/" b = 0 -> Entry.orig_name b = b.
Proof.
  intros Hb. unfold Entry.orig_name. cbn [Py.split].
  now rewrite split_scan_char_plain.
Qed.

Section EntryKeeps.
Context `{TagService} `{ExtensionService}.

(** X9. An entry whose resolved ext begins with a dot is refused for that,
    whatever [in_paths] and [in_ext] are: the ext is checked before the
    archive rules, and such an ext is none of the archive exts, also when an
    archive ext follows the dot. *)
Theorem dotted_ext_rejected did url filename ext in_paths in_ext cite cols :
  Py.startswith "." (Entry.resolve_ext url filename ext) = true ->
  Entry.__init__ did url filename ext in_paths in_ext cite cols
  = Error (DotPrefixedExt (Entry.dot_msg (Entry.resolve_ext url filename ext)))
  /\ Entry.str_in (Entry.resolve_ext url filename ext) Entry.ARCHIVE_EXTS = false.
Proof.
  intros Hdot. split.
  - rewrite init_unfold. cbv zeta. now rewrite Hdot.
  - apply not_true_is_false. intros Ha%archive_ext_no_dot. congruence.
Qed.

(** X10. Every entry that was constructed holds the arguments it was given;
    its ext does not begin with a dot and its filename is not empty; when it
    is an archive it has a non-empty [in_paths] and a non-empty [in_ext];
    when it is not, it has no [in_paths] unless its [in_ext] is
    [opus_xces]. *)
Theorem constructed_entry_invariants did url filename ext in_paths in_ext cite
    cols (e : Entry.t) :
  Entry.__init__ did url filename ext in_paths in_ext cite cols = OK e ->
  (Entry.did e = did /\ Entry.url e = url /\ Entry.in_paths e = in_paths
   /\ Entry.in_ext e = in_ext /\ Entry.cite e = cite /\ Entry.cols e = cols)
  /\ Py.startswith "." (Entry.ext e) = false
  /\ Entry.filename e <> ""
  /\ (Entry.is_archive e = true ->
      (exists p ps, Entry.in_paths e = Some (p :: ps))
      /\ (exists x, Entry.in_ext e = Some x /\ x <> ""))
  /\ (Entry.is_archive e = false ->
      Entry.in_ext e = Some "opus_xces"
      \/ Entry.in_paths e = None \/ Entry.in_paths e = Some []).
Proof.
  rewrite init_unfold. cbv zeta.
  remember (Entry.str_in (Entry.resolve_ext url filename ext) Entry.ARCHIVE_EXTS)
    as archive eqn:Harchive.
  destruct (Py.startswith "." _) eqn:Hdot; [discriminate |].
  destruct (Entry.check_shape _ _ _ _) as [[]|] eqn:Hshape; [| discriminate].
  intros [= <-]. clear Harchive.
  cbn [Entry.did Entry.url Entry.in_paths Entry.in_ext Entry.cite Entry.cols
       Entry.ext Entry.filename Entry.is_archive].
  split; [auto 10 |]. split; [exact Hdot |]. split.
  { apply or_else_nonempty. apply append_nonempty_r. discriminate. }
  unfold Entry.check_shape in Hshape. split; intros Ha; rewrite Ha in Hshape.
  - destruct (Entry.truthy_list in_paths) eqn:Ep; cbn [assert bind] in Hshape;
      [| discriminate].
    destruct (Entry.truthy_str in_ext) eqn:Ex; cbn [negb] in Hshape;
      [| discriminate].
    split; [now apply truthy_list_true | now apply truthy_str_true].
  - destruct (Entry.in_ext_is in_ext "opus_xces") eqn:Ex; cbn [negb] in Hshape.
    + left. destruct in_ext as [x|]; cbn [Entry.in_ext_is] in Ex;
        [| discriminate].
      apply String.eqb_eq in Ex. now subst.
    + right. destruct in_paths as [[|p ps]|]; auto.
      cbn [Entry.truthy_list negb assert] in Hshape. discriminate.
Qed.

(** X11. When an ext or a filename is given, and is not empty, the url plays
    no part in the construction: with another url the constructor answers
    the same, the entry differing in its [url] only. *)
Theorem url_plays_no_part did url1 url2 filename ext in_paths in_ext cite cols
    (e : Entry.t) :
  Entry.truthy_str ext = true \/ Entry.truthy_str filename = true ->
  Entry.__init__ did url1 filename ext in_paths in_ext cite cols = OK e ->
  Entry.__init__ did url2 filename ext in_paths in_ext cite cols
  = OK (Entry.mk (Entry.did e) url2 (Entry.filename e) (Entry.ext e)
          (Entry.in_paths e) (Entry.in_ext e) (Entry.cite e) (Entry.cols e)
          (Entry.is_archive e)).
Proof.
  intros Hgiven.
  assert (Hext : Entry.resolve_ext url1 filename ext
                 = Entry.resolve_ext url2 filename ext).
  { unfold Entry.resolve_ext.
    destruct ext as [[|c x]|]; cbn [Py.truthy]; try reflexivity;
      (destruct Hgiven as [Hx|Hf]; [discriminate |]);
      destruct filename as [[|c' f]|]; try discriminate; reflexivity. }
  rewrite !init_unfold. cbv zeta. rewrite <- Hext.
  destruct (Py.startswith "." _); [discriminate |].
  destruct (Entry.check_shape _ _ _ _); [| discriminate].
  intros [= <-]. reflexivity.
Qed.

(** X12. When neither an ext nor a filename is given, the ext is what the
    detection service answers on the text after the last [/] of the url (on
    the whole url when it has no [/]), and the filename is the name of the
    dataset, a dot, and that ext. *)
Theorem ext_from_url_tail did a b filename ext in_paths in_ext cite cols
    (e : Entry.t) :
  Entry.truthy_str ext = false -> Entry.truthy_str filename = false ->
  count_char "/" b = 0 ->
  (Entry.__init__ did (a +:+ "/" +:+ b) filename ext in_paths in_ext cite cols
   = OK e
   \/ Entry.__init__ did b filename ext in_paths in_ext cite cols = OK e) ->
  Entry.ext e = detect_extension b
  /\ Entry.filename e = DatasetId.name did +:+ "." +:+ detect_extension b.
Proof.
  intros Hx Hf Hb.
  assert (Hr : forall url, Entry.orig_name url = b ->
                 Entry.resolve_ext url filename ext = detect_extension b).
  { intros url Hu. unfold Entry.resolve_ext.
    assert (Entry.or_else filename (Entry.orig_name url) = b) as ->.
    { destruct filename as [[|c f]|]; cbn [Entry.or_else Py.truthy];
        auto; discriminate. }
    destruct ext as [[|c x]|]; cbn [Py.truthy]; auto; discriminate. }
  assert (Hfn : forall default, Entry.or_else filename default = default).
  { intros default. destruct filename as [[|c f]|];
      cbn [Entry.or_else Py.truthy]; auto; discriminate. }
  intros [He|He]; rewrite init_unfold in He; cbv zeta in He;
    [rewrite (Hr _ (orig_name_tail a b Hb)) in He
    | rewrite (Hr _ (orig_name_plain b Hb)) in He];
    (destruct (Py.startswith "." _); [discriminate |]);
    (destruct (Entry.check_shape _ _ _ _); [| discriminate]);
    injection He as <-; cbn [Entry.ext Entry.filename]; rewrite Hfn; auto.
Qed.

End EntryKeeps.

(** ** Entry.is_swap, in full *)

Section SwapInFull.
Context `{TagService}.

Lemma pyval_eqb_eq (a b : pyval) : pyval_eqb a b = true <-> a = b.
Proof.
  destruct a as [s|tg], b as [s'|tg']; cbn [pyval_eqb].
  - rewrite String.eqb_eq. split; congruence.
  - split; discriminate.
  - split; discriminate.
  - rewrite bool_decide_eq_true. split; congruence.
Qed.

Lemma tuple_eqb_eq (a b : list pyval) : tuple_eqb a b = true <-> a = b.
Proof.
  revert b. induction a as [|x a IH]; intros [|y b]; cbn [tuple_eqb];
    try (split; [discriminate || reflexivity | discriminate || reflexivity]).
  rewrite andb_true_iff, pyval_eqb_eq, IH. split; [intros [-> ->] | intros [= -> ->]]; auto.
Qed.

(** X13. [is_swap(langs)] is true exactly when [in_ext] is not [tmx] and
    [langs], read backwards, is the sequence of the characters of [lang_str],
    each a string of one character. *)
Theorem is_swap_true_iff (e : Entry.t) (langs : list pyval) :
  Entry.is_swap e langs = true
  <-> Entry.in_ext e <> Some "tmx"
      /\ langs = rev (map PStr (Py.chars (Entry.lang_str e))).
Proof.
  unfold Entry.is_swap.
  assert (Htmx : Entry.in_ext_is (Entry.in_ext e) "tmx" = true
                 <-> Entry.in_ext e = Some "tmx").
  { destruct (Entry.in_ext e) as [x|]; cbn [Entry.in_ext_is];
      [| split; discriminate].
    rewrite String.eqb_eq. split; congruence. }
  destruct (Entry.in_ext_is (Entry.in_ext e) "tmx").
  - split; [discriminate |]. intros [Hne _]. exfalso. apply Hne. now apply Htmx.
  - rewrite tuple_eqb_eq. split.
    + intros Hrev. split.
      * intros Heq. apply Htmx in Heq. discriminate.
      * now rewrite <- Hrev, rev_involutive.
    + intros [_ ->]. apply rev_involutive.
Qed.

End SwapInFull.

(** ** Experiment *)

Section ExperimentMore.
Context `{TagService}.

Lemma all_present_ok (entries : list (option Entry.t)) (es : list Entry.t) :
  Experiment.all_present entries = OK es <-> entries = map Some es.
Proof.
  revert es. induction entries as [|[y|] rest IH]; intros es;
    cbn [Experiment.all_present].
  - destruct es; cbn [map]; split; intros E; try discriminate; congruence.
  - destruct (Experiment.all_present rest) as [es'|] eqn:E; cbn [bind].
    + split.
      * intros [= <-]. cbn [map]. f_equal. now apply IH.
      * destruct es as [|z es]; cbn [map]; [discriminate |].
        intros [= -> Hr]. apply IH in Hr. congruence.
    + split; [discriminate |].
      destruct es as [|z es]; cbn [map]; [discriminate |].
      intros [= -> Hr]. apply IH in Hr. discriminate.
  - split; [discriminate |]. destruct es; cbn [map]; discriminate.
Qed.

Lemma all_present_none (entries : list (option Entry.t)) :
  In None entries -> Experiment.all_present entries = Error EmptyEntryError.
Proof.
  induction entries as [|[e|] rest IH]; cbn [In Experiment.all_present].
  - intros [].
  - intros [E|Hin]; [discriminate |]. now rewrite (IH Hin).
  - reflexivity.
Qed.

Lemma all_present_error (entries : list (option Entry.t)) (err : error) :
  Experiment.all_present entries = Error err -> err = EmptyEntryError.
Proof.
  induction entries as [|[e|] rest IH]; cbn [Experiment.all_present].
  - discriminate.
  - destruct (Experiment.all_present rest); cbn [bind]; [discriminate |].
    intros [= <-]. now apply IH.
  - congruence.
Qed.


(** The steps of the constructor. *)
Lemma experiment_init_inv {P : Type} (h : heap Experiment.t P)
    (langs : list pyval) (train tests : list (option Entry.t))
    (papers : option loc) (e : loc) (h' : heap Experiment.t P) :
  Experiment.__post_init__ h langs train tests papers = OK (e, h') ->
  exists tgs train' tests',
    (if existsb (fun v => negb (Experiment.is_tag v)) langs
     then Experiment.bcp47_all langs else OK (Experiment.tags_of langs))
    = OK tgs
    /\ Experiment.all_present tests = OK tests'
    /\ Experiment.all_present train = OK train'
    /\ e = fresh (dom (exps h))
    /\ h' = mkHeap
              (match papers with
               | Some _ => sets h
               | None => <[fresh (dom (sets h)) := ∅]> (sets h)
               end)
              (<[e := Experiment.mk tgs train' tests'
                        (match papers with
                         | Some s => s
                         | None => fresh (dom (sets h))
                         end)]> (exps h))
              (paps h).
Proof.
  unfold Experiment.__post_init__. intros Hr.
  destruct (if existsb _ langs then _ else _) as [tgs|];
    [| destruct papers; discriminate].
  destruct (Experiment.all_present tests) as [tests'|];
    [| destruct papers; discriminate].
  destruct (Experiment.all_present train) as [train'|];
    [| destruct papers; discriminate].
  exists tgs, train', tests'.
  destruct papers as [s|]; cbn [bind] in Hr; injection Hr as <- <-; auto.
Qed.

(** The new experiment in the store. *)
Lemma experiment_init_heap {P : Type} (h : heap Experiment.t P)
    (langs : list pyval) (train tests : list (option Entry.t))
    (papers : option loc) (e : loc) (h' : heap Experiment.t P) :
  Experiment.__post_init__ h langs train tests papers = OK (e, h') ->
  exists x,
    (e ∉ dom (exps h))
    /\ exps h' = <[e := x]> (exps h)
    /\ (forall s, papers = Some s ->
                  Experiment.papers x = s /\ sets h' = sets h)
    /\ (papers = None ->
        (Experiment.papers x ∉ dom (sets h))
        /\ sets h' = <[Experiment.papers x := ∅]> (sets h)).
Proof.
  intros (tgs & train' & tests' & _ & _ & _ & -> & ->)%experiment_init_inv.
  eexists. cbn [exps sets Experiment.papers].
  split; [apply is_fresh |]. split; [reflexivity |]. split.
  - intros s ->. auto.
  - intros ->. split; [apply is_fresh | reflexivity].
Qed.


(** X15. An Experiment with a missing entry, [None], in [train] or in [tests]
    is never constructed; the failure is EmptyEntryError when the languages
    are tags already. *)
Theorem experiment_missing_entry_rejected {P : Type} (h : heap Experiment.t P)
    (langs : list pyval) (train tests : list (option Entry.t))
    (papers : option loc) :
  In None tests \/ In None train ->
  (forall r, Experiment.__post_init__ h langs train tests papers <> OK r)
  /\ ((forall v, In v langs -> Experiment.is_tag v = true) ->
      Experiment.__post_init__ h langs train tests papers
      = Error EmptyEntryError).
Proof.
  intros Hnone. split.
  - intros [e h'] Hr. apply experiment_init_inv in Hr
      as (tgs & train' & tests' & _ & Hte & Htr & _).
    destruct Hnone as [Hin|Hin]; apply all_present_none in Hin; congruence.
  - intros Hall. unfold Experiment.__post_init__.
    assert (existsb (fun v => negb (Experiment.is_tag v)) langs = false) as ->.
    { apply not_true_is_false. intros (v & Hin & Hv)%existsb_exists.
      rewrite (Hall v Hin) in Hv. discriminate. }
    destruct Hnone as [Hin|Hin].
    + rewrite (all_present_none _ Hin). destruct papers; reflexivity.
    + rewrite (all_present_none _ Hin).
      destruct (Experiment.all_present tests) as [tests'|err] eqn:Ete.
      * destruct papers; reflexivity.
      * apply all_present_error in Ete as ->. destruct papers; reflexivity.
Qed.

End ExperimentMore.

(** ** Experiment.make *)

Section MakeMore.
Context `{TagService}.

Lemma get_entries_ok index (langs : list pyval) (names : list string)
    (es : list (option Entry.t)) :
  Experiment.get_entries index langs names = inr es
  <-> Forall2 (fun n e => index n langs = Some e) names es.
Proof.
  revert es. induction names as [|n rest IH]; intros es;
    cbn [Experiment.get_entries].
  - split; [intros [= <-]; constructor | intros Hf; inversion Hf; reflexivity].
  - destruct (index n langs) as [y|] eqn:En.
    + destruct (Experiment.get_entries index langs rest) as [bad|es'] eqn:Er.
      * split; [discriminate |]. intros Hf. inversion Hf as [|? z ? zs Hz Hzs]; subst.
        apply IH in Hzs. discriminate.
      * split.
        -- intros [= <-]. constructor; [exact En | now apply IH].
        -- intros Hf. inversion Hf as [|? z ? zs Hz Hzs]; subst.
           apply IH in Hzs. congruence.
    + split; [discriminate |]. intros Hf.
      inversion Hf as [|? z ? zs Hz Hzs]; subst. congruence.
Qed.

Lemma get_entries_first_failure index (langs : list pyval)
    (pre post : list string) (bad : string) :
  Forall (fun n => index n langs <> None) pre ->
  index bad langs = None ->
  Experiment.get_entries index langs (pre ++ bad :: post) = inl bad.
Proof.
  intros Hpre Hbad. induction Hpre as [|n pre Hn _ IH];
    cbn [app Experiment.get_entries].
  - now rewrite Hbad.
  - destruct (index n langs); [| congruence]. now rewrite IH.
Qed.

(** X16. An experiment made with [make] holds, for each name of [train] and
    of [tests], in the order of the names, the entry that the index returns
    for that name and the given languages. *)
Theorem make_resolves_in_order {P : Type} (h : heap Experiment.t P) index
    (langs : list pyval) (train tests : list string)
    (e : loc) (h' : heap Experiment.t P) :
  Experiment.make h index langs train tests = Experiment.Made (e, h') ->
  exists x,
    exps h' !! e = Some x
    /\ Forall2 (fun n y => index n langs = Some (Some y))
         train (Experiment.train x)
    /\ Forall2 (fun n y => index n langs = Some (Some y))
         tests (Experiment.tests x).
Proof.
  unfold Experiment.make.
  destruct (Experiment.get_entries index langs train) as [bad|tr] eqn:Etr;
    [discriminate |].
  destruct (Experiment.get_entries index langs tests) as [bad|te] eqn:Ete;
    [discriminate |].
  destruct (Experiment.__post_init__ h langs tr te None) as [[e1 h1]|] eqn:Ei;
    [| discriminate].
  intros [= <- <-].
  apply experiment_init_inv in Ei
    as (tgs & train' & tests' & _ & Hte & Htr & -> & ->).
  apply all_present_ok in Hte, Htr. subst tr te.
  eexists. cbn [exps]. split; [apply lookup_insert_eq |].
  cbn [Experiment.train Experiment.tests].
  apply get_entries_ok in Etr, Ete.
  split; [clear -Etr; revert Etr | clear -Ete; revert Ete].
  - generalize train'. induction train as [|n ns IH]; intros l Hf;
      destruct l as [|y l]; cbn [map] in Hf; inversion Hf; subst;
      constructor; auto.
  - generalize tests'. induction tests as [|n ns IH]; intros l Hf;
      destruct l as [|y l]; cbn [map] in Hf; inversion Hf; subst;
      constructor; auto.
Qed.

(** X17. When the index fails on a name, [make] fails with that failure, for
    the first such name of [train], and, when every name of [train] is
    found, for the first such name of [tests]; no experiment is
    constructed. *)
Theorem make_lookup_failure {P : Type} (h : heap Experiment.t P) index
    (langs : list pyval) (pre post others : list string) (bad : string) :
  Forall (fun n => index n langs <> None) pre ->
  index bad langs = None ->
  Experiment.make h index langs (pre ++ bad :: post) others = Experiment.LookupFailed bad
  /\ (Forall (fun n => index n langs <> None) others ->
      Experiment.make h index langs others (pre ++ bad :: post)
      = Experiment.LookupFailed bad).
Proof.
  intros Hpre Hbad. unfold Experiment.make.
  rewrite (get_entries_first_failure _ _ _ post _ Hpre Hbad).
  split; [reflexivity |]. intros Hothers.
  destruct (Experiment.get_entries index langs others) as [bad'|tr] eqn:Etr;
    [| reflexivity].
  exfalso. clear -Hothers Etr. revert bad' Etr.
  induction Hothers as [|n ns Hn _ IH]; intros bad' Etr;
    cbn [Experiment.get_entries] in Etr; [discriminate |].
  destruct (index n langs); [| congruence].
  destruct (Experiment.get_entries index langs ns) as [b|]; [| discriminate].
  now apply (IH b).
Qed.

End MakeMore.

(** ** Paper: what construction changes *)

Section PaperMore.
Context `{TagService}.
Implicit Types (h : heap Experiment.t Paper.t) (p e : loc) (es : list loc).

Lemma langs_of_members es : forall h ls,
  Paper.langs_of h es = Some ls ->
  forall l, l ∈ ls
            <-> exists e x, e ∈ es /\ exps h !! e = Some x
                            /\ l = map PTag (Experiment.langs x).
Proof.
  induction es as [|e0 es IH]; intros h ls Hls l; cbn [Paper.langs_of] in Hls.
  - injection Hls as <-. split; [intros Hin; inversion Hin |].
    intros (e & x & Hin & _). inversion Hin.
  - destruct (exps h !! e0) as [x0|] eqn:E0; simpl in Hls; [| discriminate].
    destruct (Paper.langs_of h es) as [ls'|] eqn:Els; simpl in Hls;
      [| discriminate].
    injection Hls as <-. rewrite elem_of_cons, (IH h ls' Els l). split.
    + intros [-> | (e & x & Hin & Hx & ->)].
      * exists e0, x0. split; [apply list_elem_of_here | auto].
      * exists e, x. split; [now apply list_elem_of_further | auto].
    + intros (e & x & Hin & Hx & ->).
      apply elem_of_cons in Hin as [-> | Hin].
      * left. congruence.
      * right. eauto.
Qed.

(** The steps of the constructor, with the languages it settles on. *)
Lemma paper_init_steps h name title url cite es langs p h' :
  Paper.__post_init__ h name title url cite es langs = Some (p, h') ->
  exists ls,
    match langs with
    | Some (l :: rest) => Some (l :: rest)
    | _ => remove_dups <$> Paper.langs_of h es
    end = Some ls
    /\ Paper.add_paper_all p
         (mkHeap (sets h) (exps h)
            (<[p := Paper.mk name title url cite es ls]> (paps h))) es
       = Some h'
    /\ p = fresh (dom (paps h)).
Proof.
  unfold Paper.__post_init__. cbv zeta. intros Hh.
  destruct (match langs with Some (l :: ls) => Some (l :: ls) | _ => _ end)
    as [ls|]; simpl in Hh; [| discriminate].
  destruct (Paper.add_paper_all _ _ es) as [h2|] eqn:E2; simpl in Hh;
    [| discriminate].
  injection Hh as <- <-. eauto.
Qed.

(** X18. The new Paper holds the fields it was given.  Its [langs] is the
    given set when one is given and is not empty; else it is the set of the
    languages of its experiments: each of them once, and nothing else. *)
Theorem paper_langs_derived h name title url cite es langs p h' :
  Paper.__post_init__ h name title url cite es langs = Some (p, h') ->
  exists ls,
    paps h' !! p = Some (Paper.mk name title url cite es ls)
    /\ (forall l rest, langs = Some (l :: rest) -> ls = l :: rest)
    /\ (langs = None \/ langs = Some [] ->
        NoDup ls
        /\ forall l, l ∈ ls
                     <-> exists e x, e ∈ es /\ exps h !! e = Some x
                                     /\ l = map PTag (Experiment.langs x)).
Proof.
  intros (ls & Hls & Hall & _)%paper_init_steps. exists ls.
  apply add_paper_all_frame in Hall as [_ Hp]. cbn [paps] in Hp.
  split; [rewrite Hp; apply lookup_insert_eq |]. split.
  - intros l rest ->. congruence.
  - intros Hnone.
    assert (Hd : remove_dups <$> Paper.langs_of h es = Some ls)
      by (destruct Hnone as [-> | ->]; exact Hls).
    destruct (Paper.langs_of h es) as [ls0|] eqn:E0; simpl in Hd;
      [| discriminate].
    injection Hd as <-. split; [apply NoDup_remove_dups |].
    intros l. rewrite elem_of_remove_dups. now apply langs_of_members.
Qed.

Lemma add_paper_all_sets p es : forall h h',
  Paper.add_paper_all p h es = Some h' ->
  (forall s, sets h !! s = None -> sets h' !! s = None)
  /\ (forall s (S : gset loc), sets h !! s = Some S ->
        exists S', sets h' !! s = Some S' /\ (S' = S \/ S' = {[p]} ∪ S))
  /\ (forall s, (forall e x, e ∈ es -> exps h !! e = Some x ->
                             Experiment.papers x <> s) ->
                sets h' !! s = sets h !! s).
Proof.
  induction es as [|e0 es IH]; intros h h' Hall.
  - injection Hall as <-. repeat split; eauto.
  - cbn [Paper.add_paper_all] in Hall.
    destruct (Paper.add_paper p h e0) as [h1|] eqn:E1; simpl in Hall;
      [| discriminate].
    apply add_paper_inv in E1 as (x0 & S0 & Hx0 & HS0 & ->).
    destruct (IH _ _ Hall) as (Hnone & Hsome & Hother). cbn [sets exps] in *.
    split; [| split].
    + intros s Hs. apply Hnone. rewrite lookup_insert_ne; [exact Hs | congruence].
    + intros s S Hs.
      destruct (decide (Experiment.papers x0 = s)) as [<- | Hne].
      * destruct (Hsome (Experiment.papers x0) ({[p]} ∪ S0))
          as (S' & HS' & Hor); [apply lookup_insert_eq |].
        exists S'. split; [exact HS' |].
        assert (S = S0) as -> by congruence. right.
        destruct Hor as [-> | ->]; [reflexivity |].
        now rewrite (assoc_L (∪)), (idemp_L (∪)).
      * apply (Hsome s S). now rewrite lookup_insert_ne.
    + intros s Hs. rewrite Hother.
      * apply lookup_insert_ne. apply (Hs e0 x0); [apply list_elem_of_here | auto].
      * intros e x Hin Hx. apply (Hs e x); [now apply list_elem_of_further | auto].
Qed.

(** X19. Constructing a Paper changes nothing but what follows: the Paper is
    stored as a new object, and it is added to sets of papers.  No experiment
    changes, no other paper changes, no set is created or removed, no set
    loses a member, and a set that belongs to none of the listed experiments
    is left as it is. *)
Theorem paper_only_adds h name title url cite es langs p h' :
  Paper.__post_init__ h name title url cite es langs = Some (p, h') ->
  exps h' = exps h
  /\ (forall q, q <> p -> paps h' !! q = paps h !! q)
  /\ (forall s, sets h !! s = None -> sets h' !! s = None)
  /\ (forall s (S : gset loc), sets h !! s = Some S ->
        exists S', sets h' !! s = Some S' /\ (S' = S \/ S' = {[p]} ∪ S))
  /\ (forall s, (forall e x, e ∈ es -> exps h !! e = Some x ->
                             Experiment.papers x <> s) ->
                sets h' !! s = sets h !! s).
Proof.
  intros (ls & _ & Hall & _)%paper_init_steps.
  pose proof (add_paper_all_frame _ _ _ _ Hall) as [He Hp].
  pose proof (add_paper_all_sets _ _ _ _ Hall) as (Hnone & Hsome & Hother).
  cbn [exps paps sets] in *.
  split; [exact He |]. split.
  - intros q Hq. rewrite Hp. apply lookup_insert_ne. congruence.
  - auto.
Qed.

(** X20. Two experiments constructed without a [papers] argument have each
    a set of their own: a Paper constructed over the first is in the set of
    the first, and the set of the second stays empty. *)
Theorem own_sets_are_separate h langs1 train1 tests1 e1 h1
    langs2 train2 tests2 e2 h2 name title url cite langs p h3 :
  Experiment.__post_init__ h langs1 train1 tests1 None = OK (e1, h1) ->
  Experiment.__post_init__ h1 langs2 train2 tests2 None = OK (e2, h2) ->
  Paper.__post_init__ h2 name title url cite [e1] langs = Some (p, h3) ->
  e1 <> e2
  /\ papers_of h3 e1 = Some {[p]}
  /\ papers_of h3 e2 = Some ∅.
Proof.
  intros (x1 & Hf1 & Hx1 & _ & Hs1)%experiment_init_heap.
  intros (x2 & Hf2 & Hx2 & _ & Hs2)%experiment_init_heap.
  destruct (Hs1 eq_refl) as [Hn1 Hsets1]. destruct (Hs2 eq_refl) as [Hn2 Hsets2].
  intros Hp.
  assert (Hne : e1 <> e2).
  { intros <-. apply Hf2. rewrite Hx1, dom_insert_L.
    apply elem_of_union_l. now apply elem_of_singleton. }
  assert (Hsne : Experiment.papers x1 <> Experiment.papers x2).
  { intros Heq. apply Hn2. rewrite <- Heq, Hsets1, dom_insert_L.
    apply elem_of_union_l. now apply elem_of_singleton. }
  assert (He1 : exps h2 !! e1 = Some x1).
  { rewrite Hx2, lookup_insert_ne by congruence.
    rewrite Hx1. apply lookup_insert_eq. }
  assert (He2 : exps h2 !! e2 = Some x2) by (rewrite Hx2; apply lookup_insert_eq).
  assert (HS1 : sets h2 !! Experiment.papers x1 = Some ∅).
  { rewrite Hsets2, lookup_insert_ne by congruence.
    rewrite Hsets1. apply lookup_insert_eq. }
  assert (HS2 : sets h2 !! Experiment.papers x2 = Some ∅)
    by (rewrite Hsets2; apply lookup_insert_eq).
  apply paper_init_steps in Hp as (ls & _ & Hall & _).
  pose proof (add_paper_all_frame _ _ _ _ Hall) as [Hexps _].
  pose proof (add_paper_all_sets _ _ _ _ Hall) as (_ & _ & Hother).
  cbn [exps sets] in Hexps, Hother.
  split; [exact Hne |]. split.
  - assert (Hpo : papers_of
                    (mkHeap (sets h2) (exps h2)
                       (<[p := Paper.mk name title url cite [e1] ls]> (paps h2)))
                    e1 = Some ∅).
    { unfold papers_of. cbn [exps sets]. rewrite He1. exact HS1. }
    destruct (add_paper_all_papers_of _ _ _ _ _ _ Hall Hpo) as (S' & HS' & _ & Hin).
    rewrite HS'. f_equal. rewrite (Hin (list_elem_of_here _ _)).
    apply (right_id_L ∅ (∪)).
  - unfold papers_of. rewrite Hexps, He2. simpl. rewrite Hother; [exact HS2 |].
    intros e x Hin Hx. apply list_elem_of_singleton in Hin as ->.
    rewrite He1 in Hx. injection Hx as <-. exact Hsne.
Qed.

End PaperMore.

(** ** Canonical strings and display lines *)

Lemma split_scan_char_segment (c : ascii) (a cur rest : string) :
  count_char c a = 0 ->
  Py.split_scan (String c "") 0 cur (a +:+ String c rest)
  = (cur +:+ a) :: Py.split_scan (String c "") 0 "" rest.
Proof.
  revert cur. induction a as [|x a IH]; intros cur Ha.
  - now rewrite append_nil_l, append_nil_r, split_scan_char, Ascii.eqb_refl.
  - cbn [count_char] in Ha. rewrite append_cons, split_scan_char.
    destruct (Ascii.eqb c x); [discriminate |].
    rewrite IH by exact Ha. now rewrite append_assoc.
Qed.

(** Splitting a joined list gives the list back. *)
Lemma split_join_char (c : ascii) (strs : list string) :
  strs <> [] ->
  Forall (fun s => count_char c s = 0) strs ->
  Py.split_scan (String c "") 0 "" (Py.join (String c "") strs) = strs.
Proof.
  intros Hne Hall. induction Hall as [|s rest Hs Hrest IH]; [congruence |].
  destruct rest as [|s' rest].
  - cbn [Py.join]. now rewrite split_scan_char_plain, append_nil_l.
  - rewrite join_cons by discriminate.
    change (s +:+ String c "" +:+ Py.join (String c "") (s' :: rest))
      with (s +:+ String c (Py.join (String c "") (s' :: rest))).
    rewrite split_scan_char_segment by exact Hs.
    rewrite append_nil_l, IH by discriminate. reflexivity.
Qed.

Lemma join_nested (sep : string) (pre strs : list string) :
  strs <> [] ->
  Py.join sep (pre ++ [Py.join sep strs]) = Py.join sep (pre ++ strs).
Proof.
  intros Hne. induction pre as [|p pre IH]; cbn [app].
  - reflexivity.
  - rewrite (join_cons sep p (pre ++ [Py.join sep strs]))
      by (destruct pre; discriminate).
    rewrite (join_cons sep p (pre ++ strs))
      by (destruct pre; cbn [app]; [exact Hne | discriminate]).
    now rewrite IH.
Qed.

Section CanonicalStrings.
Context `{TagService}.

(** The segments of the canonical string of an identifier with at least one
    language. *)
Lemma format_segments (d : DatasetId.t) :
  DatasetId.langs d <> [] ->
  count_char "-" (DatasetId.group d) = 0 ->
  count_char "-" (DatasetId.name d) = 0 ->
  count_char "-" (DatasetId.version d) = 0 ->
  Forall (fun tg => count_char "-" (tag_str tg) = 0) (DatasetId.langs d) ->
  Py.split_scan "-" 0 "" (DatasetId.format d DID_DELIM)
  = [DatasetId.group d; DatasetId.name d; DatasetId.version d]
    ++ map tag_str (DatasetId.langs d).
Proof.
  intros Hne Hg Hn Hv Ht. unfold DatasetId.format, DatasetId.lang_str, DID_DELIM.
  assert (Hm : map tag_str (DatasetId.langs d) <> [])
    by (destruct (DatasetId.langs d); [congruence | discriminate]).
  change (Py.join "-" [DatasetId.group d; DatasetId.name d; DatasetId.version d;
                       Py.join "-" (map tag_str (DatasetId.langs d))])
    with (Py.join "-" ([DatasetId.group d; DatasetId.name d; DatasetId.version d]
                       ++ [Py.join "-" (map tag_str (DatasetId.langs d))])).
  rewrite (join_nested "-" [DatasetId.group d; DatasetId.name d;
                            DatasetId.version d] _ Hm).
  apply split_join_char; [discriminate |].
  cbn [app]. repeat (apply Forall_cons; split; [assumption |]).
  now apply Forall_map.
Qed.

(** X21. Two identifiers with the same canonical string have the same
    group, name and version, and tags with the same strings, one by one: the
    canonical string tells identifiers apart as far as the strings of their
    tags do.  (Each has at least one language, and no [-] in its fields and
    in the strings of its tags.) *)
Theorem format_injective (d1 d2 : DatasetId.t) :
  DatasetId.langs d1 <> [] -> DatasetId.langs d2 <> [] ->
  Forall (fun s => count_char "-" s = 0)
    ([DatasetId.group d1; DatasetId.name d1; DatasetId.version d1]
     ++ map tag_str (DatasetId.langs d1)) ->
  Forall (fun s => count_char "-" s = 0)
    ([DatasetId.group d2; DatasetId.name d2; DatasetId.version d2]
     ++ map tag_str (DatasetId.langs d2)) ->
  DatasetId.format d1 DID_DELIM = DatasetId.format d2 DID_DELIM ->
  DatasetId.group d1 = DatasetId.group d2
  /\ DatasetId.name d1 = DatasetId.name d2
  /\ DatasetId.version d1 = DatasetId.version d2
  /\ map tag_str (DatasetId.langs d1) = map tag_str (DatasetId.langs d2).
Proof.
  intros Hne1 Hne2 Hf1 Hf2 Heq. cbn [app] in Hf1, Hf2.
  apply Forall_cons in Hf1 as [Hg1 Hf1]. apply Forall_cons in Hf1 as [Hn1 Hf1].
  apply Forall_cons in Hf1 as [Hv1 Ht1]. apply Forall_map in Ht1.
  apply Forall_cons in Hf2 as [Hg2 Hf2]. apply Forall_cons in Hf2 as [Hn2 Hf2].
  apply Forall_cons in Hf2 as [Hv2 Ht2]. apply Forall_map in Ht2.
  pose proof (format_segments d1 Hne1 Hg1 Hn1 Hv1 Ht1) as H1.
  pose proof (format_segments d2 Hne2 Hg2 Hn2 Hv2 Ht2) as H2.
  rewrite Heq, H2 in H1. cbn [app] in H1. injection H1 as -> -> -> ->. auto.
Qed.

(** X22. The line that [Entry.format] makes can be cut back into its three
    fields, the canonical string of the identifier, the url and the joined
    [in_paths], when none of them holds the delimiter; and a non-empty
    [in_paths] without commas is read back from the third field. *)
Theorem entry_format_fields (e : Entry.t) (c : ascii) :
  count_char c (DatasetId.__str__ (Entry.did e)) = 0 ->
  count_char c (Entry.url e) = 0 ->
  count_char c (Py.join "," (default [] (Entry.in_paths e))) = 0 ->
  Py.split (String c "") (Entry.format e (String c ""))
  = Some [DatasetId.__str__ (Entry.did e); Entry.url e;
          Py.join "," (default [] (Entry.in_paths e))]
  /\ (forall p ps,
        Entry.in_paths e = Some (p :: ps) ->
        Forall (fun s => count_char "," s = 0) (p :: ps) ->
        Py.split "," (Py.join "," (default [] (Entry.in_paths e)))
        = Some (p :: ps)).
Proof.
  intros Hd Hu Hp. split.
  - unfold Entry.format. cbn [Py.split]. f_equal.
    change (DatasetId.__str__ (Entry.did e) +:+ String c "" +:+ Entry.url e
            +:+ String c "" +:+ Py.join "," (default [] (Entry.in_paths e)))
      with (DatasetId.__str__ (Entry.did e)
            +:+ String c (Entry.url e
                          +:+ String c (Py.join ","
                                          (default [] (Entry.in_paths e))))).
    rewrite split_scan_char_segment by exact Hd.
    rewrite split_scan_char_segment by exact Hu.
    rewrite split_scan_char_plain by exact Hp.
    now rewrite !append_nil_l.
  - intros p ps -> Hall. cbn [default Py.split]. f_equal.
    now apply split_join_char.
Qed.

End CanonicalStrings.

(** ** A set of papers that two experiments share *)

Section SharedSet.
Context `{TagService}.

(** X23. An Experiment constructed with the [papers] set of another one
    shares it: a Paper constructed over either of the two is afterwards in
    the set of both. *)
Theorem shared_set_shares_papers
    (h : heap Experiment.t Paper.t) (e0 : loc) (x0 : Experiment.t)
    (S0 : gset loc) langs train tests e1 h1 name title url cite plangs p h2 :
  exps h !! e0 = Some x0 ->
  sets h !! Experiment.papers x0 = Some S0 ->
  Experiment.__post_init__ h langs train tests (Some (Experiment.papers x0))
  = OK (e1, h1) ->
  Paper.__post_init__ h1 name title url cite [e0] plangs = Some (p, h2) ->
  papers_of h2 e0 = Some ({[p]} ∪ S0)
  /\ papers_of h2 e1 = Some ({[p]} ∪ S0).
Proof.
  intros Hx0 HS0.
  intros (x1 & Hf1 & Hx1 & Hs1 & _)%experiment_init_heap.
  destruct (Hs1 _ eq_refl) as [Hp1 Hsets1]. intros Hp.
  assert (Hne : e0 <> e1).
  { intros Heq. apply Hf1. apply elem_of_dom. exists x0. now rewrite <- Heq. }
  assert (He0 : exps h1 !! e0 = Some x0)
    by (rewrite Hx1, lookup_insert_ne by congruence; exact Hx0).
  assert (He1 : exps h1 !! e1 = Some x1) by (rewrite Hx1; apply lookup_insert_eq).
  apply paper_init_steps in Hp as (ls & _ & Hall & _).
  set (h1' := mkHeap (sets h1) (exps h1)
                (<[p := Paper.mk name title url cite [e0] ls]> (paps h1))) in *.
  assert (Hpo0 : papers_of h1' e0 = Some S0).
  { unfold papers_of. cbn [exps sets h1']. rewrite He0. simpl.
    now rewrite Hsets1. }
  assert (Hpo1 : papers_of h1' e1 = Some S0).
  { unfold papers_of. cbn [exps sets h1']. rewrite He1. simpl.
    now rewrite Hp1, Hsets1. }
  destruct (add_paper_all_papers_of _ _ _ _ _ _ Hall Hpo0)
    as (S' & HS' & _ & Hin).
  rewrite (Hin (list_elem_of_here _ _)) in HS'. split; [exact HS' |].
  pose proof (add_paper_all_frame _ _ _ _ Hall) as [Hexps _].
  cbn [exps h1'] in Hexps.
  unfold papers_of in *. rewrite Hexps, He0 in HS'. rewrite Hexps, He1.
  simpl in *. now rewrite Hp1.
Qed.

End SharedSet.

(** * The further properties on sample values *)

(** A group with a slash, before a language that the service does not
    know. *)
Lemma invalid_fields_rejected_witness :
  valid_fields "a/b" "news" "1" = false
  /\ fake_bcp47 "xx" = None
  /\ exists m, @DatasetId.__post_init__ fake_tags "a/b" "news" "1" [PStr "xx"]
               = Error (InvalidIdentifier m).
Proof.
  split; [reflexivity |]. split; [reflexivity |].
  apply (@invalid_fields_rejected fake_tags "a/b" "news" "1" [PStr "xx"]).
  reflexivity.
Defined.

(** [en] is known, [xx] is not, [yy] is not looked at. *)
Lemma first_refused_language_reported_witness :
  @DatasetId.__post_init__ fake_tags "g" "news" "1"
    [PStr "en"; PStr "xx"; PStr "yy"]
  = Error (InvalidTag "xx").
Proof.
  apply (@first_refused_language_reported fake_tags "g" "news" "1"
           [PStr "en"] [PStr "yy"] [Eng] "xx");
    reflexivity.
Defined.

Lemma rebuilt_from_fields_witness :
  @DatasetId.__post_init__ fake_tags "g" "news" "1"
    [@PTag fake_tags Fra; @PTag fake_tags Eng]
  = OK sample_did.
Proof.
  apply (@rebuilt_from_fields fake_tags "g" "news" "1" [PStr "fr"; PStr "en"]
           sample_did).
  reflexivity.
Defined.

(** An input with a space in front, in canonical form. *)
Lemma parsed_fields_witness :
  exists l1 l2 t1 t2,
    Py.strip " g-news-1-fra-eng"
    = Py.join DID_DELIM
        [DatasetId.group sample_did; DatasetId.name sample_did;
         DatasetId.version sample_did; l1; l2]
    /\ fake_bcp47 l1 = Some t1 /\ fake_bcp47 l2 = Some t2
    /\ DatasetId.langs sample_did = [t1; t2]
    /\ valid_fields (DatasetId.group sample_did) (DatasetId.name sample_did)
         (DatasetId.version sample_did) = true
    /\ (fake_tag_str t1 = l1 -> fake_tag_str t2 = l2 ->
        DatasetId.format sample_did DID_DELIM = Py.strip " g-news-1-fra-eng").
Proof.
  apply (@parsed_fields fake_tags " g-news-1-fra-eng" sample_did).
  reflexivity.
Defined.

(** A tab in front and a newline behind. *)
Lemma parse_ignores_outer_whitespace_witness :
  @DatasetId.parse fake_tags (tab +:+ "g-news-1-fr-en" +:+ String "010"%char "")
    DID_DELIM
  = OK sample_did.
Proof.
  apply (proj1 (@parse_ignores_outer_whitespace fake_tags tab "g-news-1-fr-en"
                  (String "010"%char "") DID_DELIM eq_refl eq_refl) sample_did).
  reflexivity.
Defined.

Lemma format_needs_two_languages_witness :
  DatasetId.format sample_mono DID_DELIM = "g-news-1-eng"
  /\ exists m, @DatasetId.parse fake_tags (DatasetId.format sample_mono DID_DELIM) DID_DELIM
               = Error (MalformedIdentifierString m).
Proof.
  split; [reflexivity |]. eexists.
  apply (@format_needs_two_languages fake_tags sample_mono);
    try reflexivity; [repeat constructor | discriminate].
Defined.

Lemma format_other_delimiter_unparsed_witness :
  DatasetId.format sample_did ":" = "g:news:1:fra-eng"
  /\ exists m, @DatasetId.parse fake_tags (DatasetId.format sample_did ":") ":"
               = Error (MalformedIdentifierString m).
Proof.
  split; [reflexivity |]. eexists.
  apply (@format_other_delimiter_unparsed fake_tags sample_did ":"%char);
    try reflexivity; [discriminate | repeat constructor].
Defined.

Lemma dotted_ext_rejected_witness :
  @Entry.__init__ fake_tags fake_exts sample_did "http://host/a.zip"
    None (Some ".zip") (Some ["a.txt"]) (Some "txt") None None
  = Error (DotPrefixedExt "ext .zip should not start with a dot (.)")
  /\ Entry.str_in ".zip" Entry.ARCHIVE_EXTS = false.
Proof.
  apply (@dotted_ext_rejected fake_tags fake_exts sample_did "http://host/a.zip"
           None (Some ".zip") (Some ["a.txt"]) (Some "txt") None None).
  reflexivity.
Defined.

Lemma constructed_entry_invariants_witness :
  Py.startswith "." (Entry.ext sample_entry) = false
  /\ Entry.filename sample_entry <> ""
  /\ (Entry.is_archive sample_entry = false ->
      Entry.in_ext sample_entry = Some "opus_xces"
      \/ Entry.in_paths sample_entry = None
      \/ Entry.in_paths sample_entry = Some []).
Proof.
  destruct (@constructed_entry_invariants fake_tags fake_exts sample_did
              "http://host/path/news.tsv" None None None None None None
              sample_entry eq_refl) as (_ & Hdot & Hname & _ & Hplain).
  auto.
Defined.

Lemma url_plays_no_part_witness :
  @Entry.__init__ fake_tags fake_exts sample_did "ftp://mirror/other.bin"
    (Some "news.tsv") None None None None None
  = OK (@Entry.mk fake_tags sample_did "ftp://mirror/other.bin" "news.tsv" "tsv"
          None None None None false).
Proof.
  apply (@url_plays_no_part fake_tags fake_exts sample_did
           "http://host/path/news.tsv" "ftp://mirror/other.bin"
           (Some "news.tsv") None None None None None sample_entry).
  - right. reflexivity.
  - reflexivity.
Defined.

Lemma ext_from_url_tail_witness :
  Entry.ext sample_entry = fake_detect "news.tsv"
  /\ Entry.filename sample_entry = "news" +:+ "." +:+ fake_detect "news.tsv".
Proof.
  apply (@ext_from_url_tail fake_tags fake_exts sample_did "http://host/path"
           "news.tsv" None None None None None None sample_entry);
    try reflexivity.
  left. reflexivity.
Defined.


(** An experiment whose [tests] is [[None]]. *)
Lemma experiment_missing_entry_rejected_witness :
  @Experiment.__post_init__ fake_tags (@Paper.t fake_tags) empty_heap
    [@PTag fake_tags Eng; @PTag fake_tags Fra] [Some sample_entry] [None] None
  = Error EmptyEntryError.
Proof.
  apply (@experiment_missing_entry_rejected fake_tags (@Paper.t fake_tags)
           empty_heap [@PTag fake_tags Eng; @PTag fake_tags Fra]
           [Some sample_entry] [None] None).
  - left. left. reflexivity.
  - intros v [<- | [<- | []]]; reflexivity.
Defined.

Lemma make_resolves_in_order_witness :
  exists e h' x,
    @Experiment.make fake_tags (@Paper.t fake_tags) empty_heap sample_index
      [PStr "fr"; PStr "en"] ["news"; "news"] ["news"] = Experiment.Made (e, h')
    /\ exps h' !! e = Some x
    /\ Experiment.train x = [sample_entry; sample_entry]
    /\ Experiment.tests x = [sample_entry].
Proof.
  do 2 eexists.
  assert (Hm : @Experiment.make fake_tags (@Paper.t fake_tags) empty_heap
                 sample_index [PStr "fr"; PStr "en"] ["news"; "news"] ["news"]
               = Experiment.Made (_, _)) by (vm_compute; reflexivity).
  destruct (@make_resolves_in_order fake_tags (@Paper.t fake_tags) _ _ _ _ _ _ _
              Hm) as (x & Hx & Htr & Hte).
  exists x. split; [exact Hm |]. split; [exact Hx |].
  assert (Hx' := Hx). vm_compute in Hx'. injection Hx' as <-.
  split; reflexivity.
Defined.

(** [old] is not in the index. *)
Lemma make_lookup_failure_witness :
  @Experiment.make fake_tags (@Paper.t fake_tags) empty_heap sample_index
    [PStr "fr"; PStr "en"] ["news"; "old"; "older"] ["oldest"]
  = Experiment.LookupFailed "old"
  /\ @Experiment.make fake_tags (@Paper.t fake_tags) empty_heap sample_index
       [PStr "fr"; PStr "en"] ["news"] ["news"; "old"; "older"]
     = Experiment.LookupFailed "old".
Proof.
  split.
  - apply (@make_lookup_failure fake_tags (@Paper.t fake_tags) empty_heap
             sample_index [PStr "fr"; PStr "en"] ["news"] ["older"]
             ["oldest"] "old");
      [repeat constructor; discriminate | reflexivity].
  - apply (@make_lookup_failure fake_tags (@Paper.t fake_tags) empty_heap
             sample_index [PStr "fr"; PStr "en"] ["news"] ["older"]
             ["news"] "old");
      [repeat constructor; discriminate | reflexivity
      | repeat constructor; discriminate].
Defined.

Lemma paper_langs_derived_witness :
  exists p h' ls,
    @Paper.__post_init__ fake_tags sample_heap "key" "title" "url" "cite"
      [1%positive; 1%positive] None = Some (p, h')
    /\ paps h' !! p
       = Some (@Paper.mk fake_tags "key" "title" "url" "cite"
                 [1%positive; 1%positive] ls)
    /\ NoDup ls
    /\ ([@PTag fake_tags Eng; @PTag fake_tags Fra] ∈ ls).
Proof.
  do 2 eexists.
  assert (Hp : @Paper.__post_init__ fake_tags sample_heap "key" "title" "url"
                 "cite" [1%positive; 1%positive] None = Some (_, _))
    by (vm_compute; reflexivity).
  destruct (@paper_langs_derived fake_tags _ _ _ _ _ _ _ _ _ Hp)
    as (ls & Hls & _ & Hd).
  destruct (Hd (or_introl eq_refl)) as [Hnodup Hmem].
  exists ls. split; [exact Hp |]. split; [exact Hls |]. split; [exact Hnodup |].
  apply Hmem. exists 1%positive. eexists.
  split; [apply list_elem_of_here |]. split; [vm_compute; reflexivity |].
  reflexivity.
Defined.

Lemma paper_only_adds_witness :
  exists p h',
    @Paper.__post_init__ fake_tags sample_heap "key" "title" "url" "cite"
      [1%positive] None = Some (p, h')
    /\ exps h' = exps sample_heap
    /\ sets h' !! 2%positive = None.
Proof.
  do 2 eexists.
  assert (Hp : @Paper.__post_init__ fake_tags sample_heap "key" "title" "url"
                 "cite" [1%positive] None = Some (_, _))
    by (vm_compute; reflexivity).
  destruct (@paper_only_adds fake_tags _ _ _ _ _ _ _ _ _ Hp)
    as (Hexps & _ & Hnone & _).
  split; [exact Hp |]. split; [exact Hexps |].
  apply Hnone. vm_compute. reflexivity.
Defined.

Lemma own_sets_are_separate_witness :
  exists e1 h1 e2 h2 p h3,
    @Experiment.__post_init__ fake_tags (@Paper.t fake_tags) empty_heap
      [PStr "en"; PStr "fr"] [] [] None = OK (e1, h1)
    /\ @Experiment.__post_init__ fake_tags (@Paper.t fake_tags) h1
         [PStr "en"; PStr "de"] [] [] None = OK (e2, h2)
    /\ @Paper.__post_init__ fake_tags h2 "key" "title" "url" "cite" [e1] None
       = Some (p, h3)
    /\ e1 <> e2
    /\ papers_of h3 e1 = Some {[p]}
    /\ papers_of h3 e2 = Some ∅.
Proof.
  do 6 eexists.
  split; [vm_compute; reflexivity |].
  split; [vm_compute; reflexivity |].
  split; [vm_compute; reflexivity |].
  eapply (@own_sets_are_separate fake_tags empty_heap
            [PStr "en"; PStr "fr"] [] [] _ _ [PStr "en"; PStr "de"] [] [] _ _
            "key" "title" "url" "cite" None);
    vm_compute; reflexivity.
Defined.

Lemma format_injective_witness :
  DatasetId.format sample_did DID_DELIM
  = DatasetId.format (@DatasetId.mk fake_tags "g" "news" "1" [Fra; Eng]) DID_DELIM
  /\ map fake_tag_str (DatasetId.langs sample_did) = ["fra"; "eng"].
Proof.
  split; [reflexivity |].
  apply (@format_injective fake_tags sample_did
           (@DatasetId.mk fake_tags "g" "news" "1" [Fra; Eng]));
    solve [discriminate | reflexivity | repeat constructor].
Defined.

(** The line of an archive entry with two members, cut on the space. *)
Lemma entry_format_fields_witness :
  Py.split " "
    (Entry.format
       (@Entry.mk fake_tags sample_did "http://host/a.zip" "news.zip" "zip"
          (Some ["a.txt"; "b.txt"]) (Some "txt") None None true) " ")
  = Some ["g-news-1-fra-eng"; "http://host/a.zip"; "a.txt,b.txt"]
  /\ Py.split "," "a.txt,b.txt" = Some ["a.txt"; "b.txt"].
Proof.
  destruct (@entry_format_fields fake_tags
              (@Entry.mk fake_tags sample_did "http://host/a.zip" "news.zip"
                 "zip" (Some ["a.txt"; "b.txt"]) (Some "txt") None None true)
              " "%char eq_refl eq_refl eq_refl) as [Hline Hpaths].
  split; [exact Hline |].
  apply (Hpaths "a.txt" ["b.txt"] eq_refl). repeat constructor.
Defined.

(** A second experiment on the set of the experiment of [sample_heap]. *)
Lemma shared_set_shares_papers_witness :
  exists e1 h1 p h2,
    @Experiment.__post_init__ fake_tags (@Paper.t fake_tags) sample_heap
      [PStr "en"; PStr "de"] [] [] (Some 1%positive) = OK (e1, h1)
    /\ @Paper.__post_init__ fake_tags h1 "key" "title" "url" "cite"
         [1%positive] None = Some (p, h2)
    /\ e1 <> 1%positive
    /\ papers_of h2 1%positive = Some ({[p]} ∪ ∅)
    /\ papers_of h2 e1 = Some ({[p]} ∪ ∅).
Proof.
  do 4 eexists.
  split; [vm_compute; reflexivity |].
  split; [vm_compute; reflexivity |].
  split; [discriminate |].
  eapply (@shared_set_shares_papers fake_tags sample_heap 1%positive
            (@Experiment.mk fake_tags [Eng; Fra] [] [] 1%positive) ∅
            [PStr "en"; PStr "de"] [] [] _ _ "key" "title" "url" "cite" None);
    vm_compute; reflexivity.
Defined.
